(** * SD card driver over SPI (app/src/sdcard.c)

    A shallow embedding of the driver: [SD_SendCommand],
    [SD_GetResponseR3orR7], [SD_Init], [SD_ReadSectors] and
    [SD_WriteSectors], run against an arbitrary card, and the
    properties of the wire protocol they implement. *)

From Stdlib Require Import ZArith List String Ascii Bool Lia.
Import ListNotations.
Open Scope Z_scope.

Module SD.

(** ** Fixed-width integers

    [uint8_t] and [uint32_t] values are integers with the wrap-around
    of every conversion written out. *)

Definition u8 (x : Z) : Z := x mod 256.
Definition u32 (x : Z) : Z := x mod 2 ^ 32.

(** ** Command indices and constants (the [#define]s of the source) *)

Definition SD_GO_IDLE_STATE : Z := 0.
Definition SD_SEND_IF_COND : Z := 8.
Definition SD_STOP_TRANSMISSION : Z := 12.
Definition SD_READ_MULTIPLE_BLOCK : Z := 18.
Definition SD_WRITE_MULTIPLE_BLOCK : Z := 25.
Definition SD_APP_CMD : Z := 55.
Definition SD_READ_OCR : Z := 58.
Definition SD_ACMD_SEND_OP_COND : Z := 41.

Definition SD_IF_COND_CHECK : Z := 0xaa.
Definition SD_IF_COND_VOLT : Z := Z.shiftl 1 8.
Definition SD_ACMD41_HCS : Z := Z.shiftl 1 30.
Definition SD_TOKEN_SBR_MBR_SBW : Z := 0xfe.

(** ** The world outside the driver

    The SPI peripheral, the timer and the console are collaborators
    whose code is not part of the driver.  Each call the driver makes
    to them is recorded as an [event]; what comes back over the link is
    decided by the card, a function of everything the host has done so
    far. *)

Inductive event : Type :=
| EInit                          (* SPI1_Init() *)
| ESelect                        (* SPI1_Select() *)
| EDeselect                      (* SPI1_Deselect() *)
| ETx (b : Z)                    (* SPI1_Transmit(b) *)
| EReadBuffer (len : Z)          (* SPI1_ReadBuffer(buf, len) *)
| ESendBuffer (data : list Z)    (* SPI1_SendBuffer(buf, len), with the bytes sent *)
| EDelay (ms : Z).               (* TIMER_Delay(ms) *)

(** A card answers the last event of a history: [reply] is the byte
    clocked in during the last [ETx], [block] the byte at a given
    offset of the data delivered by the last [EReadBuffer]. *)
Record card : Type := mkCard {
  reply : list event -> Z;
  block : list event -> Z -> Z
}.

(** One [printf] call: the format string and its arguments. *)
Definition print_event : Type := (string * list Z)%type.

(** The state the driver runs in: its one static variable [isSDHC],
    the memory the buffers point into, the history of calls to the
    link and the timer, and the console output. *)
Record state : Type := mkState {
  isSDHC : Z;
  mem : Z -> Z;
  trace : list event;
  console : list print_event
}.

Definition sent (evs : list event) (s : state) : state :=
  mkState (isSDHC s) (mem s) (trace s ++ evs) (console s).

Definition logged (l : list print_event) (s : state) : state :=
  mkState (isSDHC s) (mem s) (trace s) (console s ++ l).

Definition set_isSDHC (v : Z) (s : state) : state :=
  mkState v (mem s) (trace s) (console s).

Definition set_mem (m : Z -> Z) (s : state) : state :=
  mkState (isSDHC s) m (trace s) (console s).

(** ** Outcomes and the driver monad

    A call either returns, or reaches the [while(1);] of the source
    ([Halted]), or is still inside one of the unbounded polling loops
    when the fuel given to the model is used up ([OutOfFuel]).  The
    state reached is kept in each case. *)

Inductive outcome (A : Type) : Type :=
| Returned (a : A) (s : state)
| Halted (s : state)
| OutOfFuel (s : state).

Arguments Returned {A} a s.
Arguments Halted {A} s.
Arguments OutOfFuel {A} s.

Definition final {A : Type} (o : outcome A) : state :=
  match o with
  | Returned _ s => s
  | Halted s => s
  | OutOfFuel s => s
  end.

Definition M (A : Type) : Type := state -> outcome A.

Definition ret {A : Type} (a : A) : M A := fun s => Returned a s.

Definition bind {A B : Type} (m : M A) (k : A -> M B) : M B :=
  fun s =>
    match m s with
    | Returned a s' => k a s'
    | Halted s' => Halted s'
    | OutOfFuel s' => OutOfFuel s'
    end.

Notation "x <- m ;; k" := (bind m (fun x => k))
  (at level 61, m at next level, right associativity).
Notation "m ;; k" := (bind m (fun _ => k))
  (at level 61, right associativity).

(** [if (c) { body }] without an else branch. *)
Definition when (c : bool) (body : M unit) : M unit :=
  if c then body else ret tt.

(** [while(1);] *)
Definition halt {A : Type} : M A := fun s => Halted s.

Definition out_of_fuel {A : Type} : M A := fun s => OutOfFuel s.

(** ** Console *)

Definition crlf : string := String "013" (String "010" EmptyString).

Definition printf (fmt : string) (args : list Z) : M unit :=
  fun s => Returned tt (logged [(fmt, args)] s).

(** The [print] macro is [printf]; the [dprint] macro is
    [printf("SD: "); printf(...)].  Every use of [dprint] in the source
    that sits under an [if] is inside braces, so both calls are
    guarded. *)
Definition print (fmt : string) (args : list Z) : M unit := printf fmt args.

Definition dprint (fmt : string) (args : list Z) : M unit :=
  printf "SD: " [] ;; printf fmt args.

Section Driver.

Variable sd : card.

(** ** Calls into the collaborators

    [spi1.h] and [timers.h] are included by the driver but their
    functions are defined elsewhere; the definitions below record each
    call and take what the call brings back from the card. *)

(** Modelled from the spec: [SPI1_Init], the set-up of the serial
    transport, whose code is missing. *)
Definition SPI1_Init : M unit := fun s => Returned tt (sent [EInit] s).

(** Modelled from the spec: [SPI1_Select], the collaborator's
    [select()], whose code is missing. *)
Definition SPI1_Select : M unit := fun s => Returned tt (sent [ESelect] s).

(** Modelled from the spec: [SPI1_Deselect], the collaborator's
    [deselect()], whose code is missing. *)
Definition SPI1_Deselect : M unit := fun s => Returned tt (sent [EDeselect] s).

(** Modelled from the spec: [TIMER_Delay], the collaborator's
    [delayMilliseconds(ms)], whose code is missing. *)
Definition TIMER_Delay (ms : Z) : M unit := fun s => Returned tt (sent [EDelay ms] s).

(** The byte the card clocks back for the last transmission of [h]. *)
Definition rx (h : list event) : Z := u8 (reply sd h).

(** Modelled from the spec: [SPI1_Transmit], the collaborator's
    [transmitByte(byte) -> byte], whose code is missing: one byte goes
    out, the byte received in exchange is the result. *)
Definition SPI1_Transmit (data : Z) : M Z :=
  fun s =>
    let s' := sent [ETx (u8 data)] s in
    Returned (rx (trace s')) s'.

(** Modelled from the spec: [SPI1_ReadBuffer], the collaborator's
    [readBlock(buffer, length)], whose code is missing: [len] bytes from
    the card are stored at [buf .. buf+len-1]. *)
Definition SPI1_ReadBuffer (buf len : Z) : M unit :=
  fun s =>
    let s' := sent [EReadBuffer len] s in
    let h := trace s' in
    Returned tt
      (set_mem (fun a => if (buf <=? a) && (a <? buf + len)
                         then u8 (block sd h (a - buf)) else mem s a) s').

(** The bytes at [buf .. buf+len-1]. *)
Definition load (m : Z -> Z) (buf : Z) (len : nat) : list Z :=
  map (fun k => m (buf + Z.of_nat k)) (seq 0 len).

(** Modelled from the spec: [SPI1_SendBuffer], the collaborator's
    [writeBlock(buffer, length)], whose code is missing: the [len] bytes
    at [buf] go out. *)
Definition SPI1_SendBuffer (buf len : Z) : M unit :=
  fun s => Returned tt (sent [ESendBuffer (load (mem s) buf (Z.to_nat len))] s).

(** ** Command layer *)

(** [static uint8_t SD_SendCommand(uint8_t cmd, uint32_t args)] *)
Definition SD_SendCommand (cmd args : Z) : M Z :=
  SPI1_Transmit (Z.lor 0x40 cmd) ;;
  SPI1_Transmit (Z.shiftr args 24) ;;
  SPI1_Transmit (Z.shiftr args 16) ;;
  SPI1_Transmit (Z.shiftr args 8) ;;
  SPI1_Transmit args ;;
  (if cmd =? SD_GO_IDLE_STATE then SPI1_Transmit 0x95
   else if cmd =? SD_SEND_IF_COND then SPI1_Transmit 0x87
   else SPI1_Transmit 0xff) ;;
  SPI1_Transmit 0xff ;;
  r <- SPI1_Transmit 0xff ;;
  dprint ("Response to cmd %d is %02x" ++ crlf) [cmd; r] ;;
  ret r.

(** [static uint8_t SD_GetResponseR3orR7(uint8_t* buf)]: the four
    bytes stored in [buf[0..3]] are returned with the result. *)
Definition SD_GetResponseR3orR7 : M (Z * list Z) :=
  b0 <- SPI1_Transmit 0xff ;;
  b1 <- SPI1_Transmit 0xff ;;
  b2 <- SPI1_Transmit 0xff ;;
  b3 <- SPI1_Transmit 0xff ;;
  ret (0, [b0; b1; b2; b3]).

(** ** Loops of the source *)

(** [for (i = i0; i < i0 + n; i++) body(i)] with a body that neither
    breaks nor changes [i]. *)
Fixpoint for_range (n : nat) (i : Z) (body : Z -> M unit) : M unit :=
  match n with
  | O => ret tt
  | S n' => body i ;; for_range n' (i + 1) body
  end.

(** [for (i=0; i<4; i++) print("%02x ", buf[i]);  print("\r\n");] *)
Definition print_buf (buf : list Z) : M unit :=
  for_range 4 0 (fun i => print "%02x " [nth (Z.to_nat i) buf 0]) ;;
  print crlf [].

(** ** Initialisation *)

(** The middle part of [SD_Init]: the ACMD41 loop,
    [for (i=0; i<10; i++) { ... }], entered
    with [n = 10 - i] iterations left: leaving by [break] and falling
    out of the loop both continue after it; the tenth failure ends in
    [while(1);]. *)
Fixpoint poll_loop (n : nat) (i : Z) : M unit :=
  match n with
  | O => ret tt
  | S n' =>
      SD_SendCommand SD_APP_CMD 0 ;;
      resp <- SD_SendCommand SD_ACMD_SEND_OP_COND SD_ACMD41_HCS ;;
      TIMER_Delay 20 ;;
      if resp =? 0x00 then ret tt
      else
        when (i =? 9)
          (dprint ("Failed to initialize SD card" ++ crlf) [] ;; halt) ;;
        poll_loop n' (i + 1)
  end.

(** The last part of [SD_Init]: the second READ_OCR and the capacity
    flag. *)
Definition read_capacity : M unit :=
  resp <- SD_SendCommand SD_READ_OCR 0 ;;
  rb <- SD_GetResponseR3orR7 ;;
  let buf := snd rb in
  when (negb (resp =? 0x00)) (dprint ("SD_READ_OCR error" ++ crlf) []) ;;
  dprint "OCR value: " [] ;;
  print_buf buf ;;
  (if negb (Z.land (nth 0 buf 0) 0x40 =? 0)
   then dprint ("SDHC card connected" ++ crlf) [] ;;
        (fun s => Returned tt (set_isSDHC 1 s))
   else dprint ("SDSC card connected" ++ crlf) [] ;;
        (fun s => Returned tt (set_isSDHC 0 s))) ;;
  SPI1_Deselect.

(** The first part of [SD_Init], up to the ACMD41 loop: link set-up,
    synchronisation, CMD0, CMD8 and the first READ_OCR. *)
Definition bring_up : M unit :=
  SPI1_Init ;;
  SPI1_Select ;;
  for_range 20 0 (fun _ => SPI1_Transmit 0xff ;; ret tt) ;;
  resp <- SD_SendCommand SD_GO_IDLE_STATE 0 ;;
  when (negb (resp =? 0x01)) (dprint ("SD_GO_IDLE_STATE error" ++ crlf) []) ;;
  resp <- SD_SendCommand SD_SEND_IF_COND (Z.lor SD_IF_COND_VOLT SD_IF_COND_CHECK) ;;
  rb <- SD_GetResponseR3orR7 ;;
  let buf := snd rb in
  when (negb (resp =? 0x01)) (dprint ("SD_SEND_IF_COND error" ++ crlf) []) ;;
  when (negb (nth 3 buf 0 =? SD_IF_COND_CHECK)
        || negb (nth 2 buf 0 =? Z.shiftr SD_IF_COND_VOLT 8))
    (dprint ("SD_SEND_IF_COND error" ++ crlf) [] ;; print_buf buf) ;;
  resp <- SD_SendCommand SD_READ_OCR 0 ;;
  rb <- SD_GetResponseR3orR7 ;;
  let buf := snd rb in
  when (negb (resp =? 0x01)) (dprint ("SD_READ_OCR error" ++ crlf) []) ;;
  dprint "OCR value: " [] ;;
  print_buf buf.

(** [void SD_Init(void)]: the three parts in sequence. *)
Definition SD_Init : M unit :=
  bring_up ;;
  poll_loop 10 0 ;;
  read_capacity.

(** ** Block transfers *)

(** Reading the static variable. *)
Definition get_isSDHC : M Z := fun s => Returned (isSDHC s) s.

(** [while (SPI1_Transmit(0xff) != SD_TOKEN_SBR_MBR_SBW);] *)
Fixpoint wait_data_token (fuel : nat) : M unit :=
  match fuel with
  | O => out_of_fuel
  | S fuel' =>
      r <- SPI1_Transmit 0xff ;;
      if negb (r =? SD_TOKEN_SBR_MBR_SBW) then wait_data_token fuel' else ret tt
  end.

(** [while(!SPI1_Transmit(0xff));] *)
Fixpoint wait_not_busy (fuel : nat) : M unit :=
  match fuel with
  | O => out_of_fuel
  | S fuel' =>
      r <- SPI1_Transmit 0xff ;;
      if r =? 0 then wait_not_busy fuel' else ret tt
  end.

(** [while (count) { ...; count--; buf += 512; }] of [SD_ReadSectors] *)
Fixpoint read_blocks (fuel : nat) (count : nat) (buf : Z) : M unit :=
  match count with
  | O => ret tt
  | S count' =>
      wait_data_token fuel ;;
      SPI1_ReadBuffer buf 512 ;;
      SPI1_Transmit 0xff ;;
      SPI1_Transmit 0xff ;;
      read_blocks fuel count' (buf + 512)
  end.

(** [uint8_t SD_ReadSectors(uint8_t* buf, uint32_t sector, uint32_t count)];
    [fuel] bounds each of the polling loops. *)
Definition SD_ReadSectors (fuel : nat) (buf sector count : Z) : M Z :=
  sdhc <- get_isSDHC ;;
  let sector := if sdhc =? 0 then u32 (sector * 512) else sector in
  SPI1_Select ;;
  resp <- SD_SendCommand SD_READ_MULTIPLE_BLOCK sector ;;
  when (negb (resp =? 0x00))
    (dprint ("SD_READ_MULTIPLE_BLOCK error" ++ crlf) []) ;;
  read_blocks fuel (Z.to_nat count) buf ;;
  SD_SendCommand SD_STOP_TRANSMISSION 0 ;;
  wait_not_busy fuel ;;
  SPI1_Deselect ;;
  ret 0.

(** [do { status = SD_SendCommand(SD_WRITE_MULTIPLE_BLOCK, sector);
         TIMER_Delay(5); } while (status != 0);] *)
Fixpoint write_command (fuel : nat) (sector : Z) : M unit :=
  match fuel with
  | O => out_of_fuel
  | S fuel' =>
      status <- SD_SendCommand SD_WRITE_MULTIPLE_BLOCK sector ;;
      TIMER_Delay 5 ;;
      if negb (status =? 0) then write_command fuel' sector else ret tt
  end.

(** [while (count) { ...; count--; buf += 512; }] of [SD_WriteSectors] *)
Fixpoint write_blocks (count : nat) (buf : Z) : M unit :=
  match count with
  | O => ret tt
  | S count' =>
      SPI1_Transmit 0xfc ;;
      SPI1_SendBuffer buf 512 ;;
      SPI1_Transmit 0xff ;;
      SPI1_Transmit 0xff ;;
      write_blocks count' (buf + 512)
  end.

(** [uint8_t SD_WriteSectors(uint8_t* buf, uint32_t sector, uint32_t count)] *)
Definition SD_WriteSectors (fuel : nat) (buf sector count : Z) : M Z :=
  let sector := u32 (sector * 512) in
  SPI1_Select ;;
  write_command fuel sector ;;
  SPI1_Transmit 0xff ;;
  write_blocks (Z.to_nat count) buf ;;
  SPI1_Transmit 0xfd ;;
  SPI1_Transmit 0xff ;;
  wait_not_busy fuel ;;
  SPI1_Deselect ;;
  ret 0.

End Driver.


(** ** The wire format, as the protocol describes it *)

(** Checksum byte of a command frame. *)
Definition checksum (cmd : Z) : Z :=
  if cmd =? 0 then 0x95 else if cmd =? 8 then 0x87 else 0xff.

(** The six bytes of a command frame: index byte, argument
    most-significant byte first, checksum. *)
Definition command_frame (cmd args : Z) : list Z :=
  [Z.lor 0x40 cmd;
   args / 2 ^ 24; (args / 2 ^ 16) mod 256; (args / 2 ^ 8) mod 256; args mod 256;
   checksum cmd].

(** The 32-bit argument carried by a frame (bytes 1 to 4, big-endian). *)
Definition frame_argument (frame : list Z) : Z :=
  nth 1 frame 0 * 2 ^ 24 + nth 2 frame 0 * 2 ^ 16 + nth 3 frame 0 * 2 ^ 8 + nth 4 frame 0.

Definition is_byte (b : Z) : Prop := 0 <= b < 256.

(** The eight bytes [SD_SendCommand] hands to [SPI1_Transmit], each
    converted to [uint8_t]: the frame and the two bytes clocked out to
    fetch the response. *)
Definition wire_bytes (cmd args : Z) : list Z :=
  [u8 (Z.lor 0x40 cmd);
   u8 (Z.shiftr args 24); u8 (Z.shiftr args 16); u8 (Z.shiftr args 8); u8 args;
   checksum cmd; 0xff; 0xff].

(** Everything [SD_SendCommand] puts on the link. *)
Definition command_events (cmd args : Z) : list event :=
  map ETx (wire_bytes cmd args).

(** The line [SD_SendCommand] prints. *)
Definition response_log (cmd r : Z) : list print_event :=
  [("SD: "%string, []); (("Response to cmd %d is %02x" ++ crlf)%string, [cmd; r])].

(** The bytes transmitted in a history, in order. *)
Fixpoint tx_bytes (h : list event) : list Z :=
  match h with
  | [] => []
  | ETx b :: h' => b :: tx_bytes h'
  | _ :: h' => tx_bytes h'
  end.

(** The part of [h'] that was added to [h]. *)
Definition added (h h' : list event) : list event := skipn (List.length h) h'.

(** The argument field of the first command frame put on the link
    between two states. *)
Definition first_argument (s s' : state) : Z :=
  frame_argument (firstn 6 (tx_bytes (added (trace s) (trace s')))).

(** ** Relations between the state before and after a call *)

(** The link history and the console only grow. *)
Definition extends (s s' : state) : Prop :=
  (exists e, trace s' = trace s ++ e) /\ (exists l, console s' = console s ++ l).

(** In addition the capacity flag is left alone. *)
Definition follows (s s' : state) : Prop :=
  isSDHC s' = isSDHC s /\ extends s s'.

(** A routine whose every run, finished or not, relates the state it
    starts in to the state it reaches. *)
Definition respects (R : state -> state -> Prop) {A : Type} (m : M A) : Prop :=
  forall s, R s (final (m s)).


(** How a run ends. *)
Inductive ending (A : Type) : Type :=
| Ret (a : A)
| Halt
| Fuel.

Arguments Ret {A} a.
Arguments Halt {A}.
Arguments Fuel {A}.

Definition ending_of {A : Type} (o : outcome A) : ending A :=
  match o with
  | Returned a _ => Ret a
  | Halted _ => Halt
  | OutOfFuel _ => Fuel
  end.

(** [runs m h mu r evs]: started with link history [h] and memory [mu],
    [m] ends as [r] after adding exactly [evs] to the history, with the
    memory unchanged. *)
Definition runs {A : Type} (m : M A) (h : list event) (mu : Z -> Z)
    (r : ending A) (evs : list event) : Prop :=
  forall s, trace s = h -> mem s = mu ->
    ending_of (m s) = r /\ trace (final (m s)) = h ++ evs /\ mem (final (m s)) = mu.

(** ** The bring-up sequence on the link *)

Definition filler (n : nat) : list event := repeat (ETx 0xff) n.

(** Everything [SD_Init] does before the ACMD41 loop. *)
Definition bringup_events : list event :=
  [EInit; ESelect] ++ filler 20
  ++ command_events SD_GO_IDLE_STATE 0
  ++ command_events SD_SEND_IF_COND 0x1aa ++ filler 4
  ++ command_events SD_READ_OCR 0 ++ filler 4.

(** One iteration of the ACMD41 loop. *)
Definition poll_command_events : list event :=
  command_events SD_APP_CMD 0 ++ command_events SD_ACMD_SEND_OP_COND (2 ^ 30).

Definition poll_events : list event := poll_command_events ++ [EDelay 20].

Definition polls (n : nat) : list event := List.concat (repeat poll_events n).

(** The capacity read that follows the loop. *)
Definition capacity_events : list event :=
  command_events SD_READ_OCR 0 ++ filler 4 ++ [EDeselect].

(** The capacity flag for a first OCR byte. *)
Definition capacity_flag (ocr0 : Z) : Z := if Z.testbit ocr0 6 then 1 else 0.

(** ** The write sequence on the link *)

(** One attempt of the WRITE_MULTIPLE_BLOCK command with its delay. *)
Definition write_attempt (address : Z) : list event :=
  command_events SD_WRITE_MULTIPLE_BLOCK address ++ [EDelay 5].

Definition write_attempts (n : nat) (address : Z) : list event :=
  List.concat (repeat (write_attempt address) n).

(** The data phase of a write: per block the token, the payload and two
    bytes in place of the CRC. *)
Fixpoint payload_events (mu : Z -> Z) (count : nat) (buf : Z) : list event :=
  match count with
  | O => []
  | S count' =>
      [ETx 0xfc; ESendBuffer (load mu buf 512); ETx 0xff; ETx 0xff]
      ++ payload_events mu count' (buf + 512)
  end.

(** What a write puts on the link after select once the command was
    accepted at attempt [n], up to the busy-wait. *)
Definition write_events (mu : Z -> Z) (n : nat) (address buf : Z) (count : nat)
    : list event :=
  write_attempts n address ++ [ETx 0xff] ++ payload_events mu count buf
    ++ [ETx 0xfd; ETx 0xff].

Section Card.

Variable sd : card.

(** Status the card gives to the ACMD41 of polling attempt [k + 1]
    when [SD_Init] was entered with link history [h]. *)
Definition poll_status (h : list event) (k : nat) : Z :=
  rx sd (h ++ bringup_events ++ polls k ++ poll_command_events).

(** First byte of the OCR the card gives to the READ_OCR issued after
    [n] polling attempts. *)
Definition ocr_byte0 (h : list event) (n : nat) : Z :=
  rx sd (h ++ bringup_events ++ polls n
           ++ command_events SD_READ_OCR 0 ++ [ETx 0xff]).

(** Status the card gives to attempt [k + 1] of the write command of a
    [SD_WriteSectors] call entered with link history [h]. *)
Definition write_status (h : list event) (address : Z) (k : nat) : Z :=
  rx sd (h ++ [ESelect] ++ write_attempts k address
           ++ command_events SD_WRITE_MULTIPLE_BLOCK address).

End Card.

(** ** Addresses *)

(** The address [SD_ReadSectors] puts in its command. *)
Definition read_address (s : state) (sector : Z) : Z :=
  if isSDHC s =? 0 then u32 (sector * 512) else sector.

(** The address [SD_WriteSectors] puts in its command. *)
Definition write_address (sector : Z) : Z := u32 (sector * 512).

(** ** Cards that differ in one reply *)

Definition event_eq_dec (a b : event) : {a = b} + {a <> b}.
Proof.
  decide equality; try apply Z.eq_dec; apply (list_eq_dec Z.eq_dec).
Defined.

(** The card [sd], except that it answers [v] to the last transmission
    of the history [h]. *)
Definition with_reply (sd : card) (h : list event) (v : Z) : card :=
  mkCard (fun h' => if list_eq_dec event_eq_dec h' h then v else reply sd h')
         (block sd).

(** ** Runs that do not look at the capacity flag *)

Definition lift_outcome {A : Type} (f : state -> state) (o : outcome A) : outcome A :=
  match o with
  | Returned a s => Returned a (f s)
  | Halted s => Halted (f s)
  | OutOfFuel s => OutOfFuel (f s)
  end.

(** Changing the flag beforehand changes nothing but the flag. *)
Definition flag_blind {A : Type} (m : M A) : Prop :=
  forall v s, m (set_isSDHC v s) = lift_outcome (set_isSDHC v) (m s).

(** ** Simulated cards *)

(** A card that answers [v] to every byte. *)
Definition card_const (v : Z) : card := mkCard (fun _ => v) (fun _ _ => 0).

(** A card that answers [busy] to every byte except the one that makes
    the history [len] events long, to which it answers 0. *)
Definition card_zero_at (len : nat) (busy : Z) : card :=
  mkCard (fun h => if Nat.eqb (List.length h) len then 0 else busy) (fun _ _ => 0).

(** The state at power-on: flag clear, nothing sent, nothing printed. *)
Definition power_on : state := mkState 0 (fun _ => 0) [] [].

(** A state left behind by the initialisation of a high-capacity card. *)
Definition sdhc_ready : state := mkState 1 (fun _ => 0) [] [].

(** A card that follows a script: the reply to the byte that makes the
    history [n] events long is looked up under [n], [idle] when there is
    no entry; the byte at offset [k] of every block it delivers is
    [data k]. *)
Fixpoint scripted (script : list (nat * Z)) (idle : Z) (n : nat) : Z :=
  match script with
  | [] => idle
  | (m, v) :: script' => if Nat.eqb n m then v else scripted script' idle n
  end.

Definition card_script (script : list (nat * Z)) (idle : Z) (data : Z -> Z) : card :=
  mkCard (fun h => scripted script idle (List.length h)) (fun _ k => data k).

(** The line [SD_Init] prints before it hangs. *)
Definition failure_log : list print_event :=
  [("SD: "%string, []); (("Failed to initialize SD card" ++ crlf)%string, [])].

(** ** Polling loops

    The three unbounded loops of the transfers clock out filler bytes
    until a reply passes a test. *)

Definition is_token (r : Z) : bool := r =? SD_TOKEN_SBR_MBR_SBW.
Definition is_ready (r : Z) : bool := negb (r =? 0).

(** ** Traffic between select and deselect *)

Definition is_traffic (e : event) : bool :=
  match e with
  | ETx _ | EReadBuffer _ | ESendBuffer _ | EDelay _ => true
  | EInit | ESelect | EDeselect => false
  end.

(** Only traffic was added to the link history. *)
Definition traffic_only (s s' : state) : Prop :=
  exists e, trace s' = trace s ++ e /\ forallb is_traffic e = true.

(** Memory changed nowhere outside [lo .. hi-1]. *)
Definition mem_outside (lo hi : Z) (s s' : state) : Prop :=
  forall a, a < lo \/ hi <= a -> mem s' a = mem s a.

(** A preorder on states that holds across traffic on the link, output
    on the console and a change of the capacity flag. *)
Definition stable (R : state -> state -> Prop) : Prop :=
  (forall s, R s s) /\
  (forall s1 s2 s3, R s1 s2 -> R s2 s3 -> R s1 s3) /\
  (forall e s, forallb is_traffic e = true -> R s (sent e s)) /\
  (forall l s, R s (logged l s)) /\
  (forall v s, R s (set_isSDHC v s)).

(** A routine that adds traffic only and, when it returns, a final
    deselect. *)
Definition closes {A : Type} (m : M A) : Prop :=
  forall s,
    match m s with
    | Returned _ s' =>
        exists e, trace s' = trace s ++ e ++ [EDeselect] /\ forallb is_traffic e = true
    | Halted s' | OutOfFuel s' =>
        exists e, trace s' = trace s ++ e /\ forallb is_traffic e = true
    end.

(** What ends the traffic of a transfer: a deselect if the call
    returned, nothing if it did not. *)
Definition closing {A : Type} (o : outcome A) : list event :=
  match o with
  | Returned _ _ => [EDeselect]
  | Halted _ | OutOfFuel _ => []
  end.

(** The payload bytes handed to [SPI1_SendBuffer] in a history, in
    order. *)
Fixpoint sent_data (h : list event) : list Z :=
  match h with
  | [] => []
  | ESendBuffer data :: h' => data ++ sent_data h'
  | _ :: h' => sent_data h'
  end.

(** A card for a read of two blocks: it accepts READ_MULTIPLE_BLOCK,
    sends the first data token after two other bytes and the second at
    once, and is busy for one byte after STOP_TRANSMISSION. *)
Definition card_two_blocks : card :=
  card_script [(9%nat, 0); (12%nat, 0xfe); (16%nat, 0xfe); (28%nat, 0)] 0xff
    (fun k => k).

(** ** The read sequence on the link *)

(** One block of a read whose data token comes after [d] other bytes:
    [d + 1] filler bytes, the payload, two bytes for the CRC. *)
Definition block_events (d : nat) : list event :=
  filler (S d) ++ [EReadBuffer 512; ETx 0xff; ETx 0xff].

Definition blocks_events (ds : list nat) : list event :=
  List.concat (map block_events ds).

Section Waiting.

Variable sd : card.

(** After the history [h], the replies to the first [n] filler bytes
    fail the test [p] and the reply to the next one passes it. *)
Definition waits (p : Z -> bool) (h : list event) (n : nat) : bool :=
  forallb (fun k => negb (p (rx sd (h ++ filler (S k))))) (seq 0 n)
  && p (rx sd (h ++ filler (S n))).

(** After the history [h], none of the replies to the first [n] filler
    bytes passes the test [p]. *)
Definition starves (p : Z -> bool) (h : list event) (n : nat) : bool :=
  forallb (fun k => negb (p (rx sd (h ++ filler (S k))))) (seq 0 n).

(** The data tokens of successive blocks come after [ds] other bytes. *)
Fixpoint tokens_after (h : list event) (ds : list nat) : bool :=
  match ds with
  | [] => true
  | d :: ds' => waits is_token h d && tokens_after (h ++ block_events d) ds'
  end.

(** The first of the polling attempts [k], [k + 1], ..., [k + n - 1]
    of [SD_Init] that the card answers with 0. *)
Fixpoint first_ready_from (h : list event) (k n : nat) : option nat :=
  match n with
  | O => None
  | S n' =>
      if poll_status sd h k =? 0 then Some k else first_ready_from h (S k) n'
  end.

Definition first_ready (h : list event) : option nat := first_ready_from h 0 10.

End Waiting.

(** * Properties *)

(** ** Arithmetic of the frame bytes *)

Lemma u8_small (x : Z) : 0 <= x < 256 -> u8 x = x.
Proof. intros H. unfold u8. now apply Z.mod_small. Qed.

Lemma index_byte_range (cmd : Z) : 0 <= cmd < 256 -> 64 <= Z.lor 0x40 cmd < 256.
Proof.
  intros [Hlo Hhi].
  assert (Hnn : 0 <= Z.lor 64 cmd) by (apply Z.lor_nonneg; lia).
  assert (Hbit : Z.testbit (Z.lor 64 cmd) 6 = true)
    by (rewrite Z.lor_spec; reflexivity).
  assert (Hlow : 64 <= Z.lor 64 cmd).
  { destruct (Z_lt_le_dec (Z.lor 64 cmd) 64) as [Hlt|]; [|assumption].
    destruct (Z.eq_dec (Z.lor 64 cmd) 0) as [E|NE].
    - rewrite E in Hbit. discriminate.
    - assert (Z.log2 (Z.lor 64 cmd) < 6)
        by (apply Z.log2_lt_pow2; [lia|exact Hlt]).
      rewrite Z.bits_above_log2 in Hbit by lia. discriminate. }
  split; [exact Hlow|].
  apply (Z.log2_lt_pow2 (Z.lor 64 cmd) 8); [lia|].
  rewrite Z.log2_lor by lia.
  apply Z.max_lub_lt; [reflexivity|].
  destruct (Z.eq_dec cmd 0) as [->|]; [reflexivity|].
  apply Z.log2_lt_pow2; lia.
Qed.

Lemma argument_bytes (args : Z) :
  0 <= args < 2 ^ 32 ->
  u8 (Z.shiftr args 24) = args / 2 ^ 24 /\
  u8 (Z.shiftr args 16) = (args / 2 ^ 16) mod 256 /\
  u8 (Z.shiftr args 8) = (args / 2 ^ 8) mod 256 /\
  u8 args = args mod 256.
Proof.
  intros H. rewrite !Z.shiftr_div_pow2 by lia. unfold u8.
  repeat split; try reflexivity.
  apply Z.mod_small. split.
  - apply Z.div_pos; lia.
  - apply Z.div_lt_upper_bound; lia.
Qed.

Lemma frame_argument_correct (cmd args : Z) :
  0 <= args < 2 ^ 32 -> frame_argument (command_frame cmd args) = args.
Proof.
  intros H. unfold frame_argument, command_frame. cbn [nth].
  pose proof (Z.div_mod args (2 ^ 8) ltac:(lia)) as H0.
  pose proof (Z.div_mod (args / 2 ^ 8) (2 ^ 8) ltac:(lia)) as H1.
  pose proof (Z.div_mod (args / 2 ^ 16) (2 ^ 8) ltac:(lia)) as H2.
  assert (E16 : args / 2 ^ 8 / 2 ^ 8 = args / 2 ^ 16)
    by (rewrite Z.div_div by lia; reflexivity).
  assert (E24 : args / 2 ^ 16 / 2 ^ 8 = args / 2 ^ 24)
    by (rewrite Z.div_div by lia; reflexivity).
  rewrite E16 in H1. rewrite E24 in H2.
  change (2 ^ 8) with 256 in *. change (2 ^ 16) with 65536 in *.
  change (2 ^ 24) with 16777216 in *. lia.
Qed.

Lemma tx_bytes_app (h1 h2 : list event) : tx_bytes (h1 ++ h2) = tx_bytes h1 ++ tx_bytes h2.
Proof.
  induction h1 as [|e h1 IH]; [reflexivity|].
  destruct e; cbn; rewrite ?IH; reflexivity.
Qed.

Lemma tx_bytes_map (l : list Z) : tx_bytes (map ETx l) = l.
Proof. induction l as [|b l IH]; [reflexivity|]. cbn. now rewrite IH. Qed.

(** For a command index and an argument in range, the bytes on the wire
    are the frame of the protocol followed by two filler bytes. *)
Lemma wire_bytes_frame (cmd args : Z) :
  0 <= cmd < 256 -> 0 <= args < 2 ^ 32 ->
  wire_bytes cmd args = command_frame cmd args ++ [0xff; 0xff].
Proof.
  intros Hc Ha.
  destruct (argument_bytes args Ha) as (E3 & E2 & E1 & E0).
  assert (Ec : u8 (Z.lor 0x40 cmd) = Z.lor 0x40 cmd)
    by (apply u8_small; pose proof (index_byte_range cmd Hc); lia).
  unfold wire_bytes, command_frame. rewrite Ec, E3, E2, E1, E0. reflexivity.
Qed.

Lemma checksum_is_byte (cmd : Z) : is_byte (checksum cmd).
Proof.
  unfold checksum, is_byte.
  destruct (cmd =? 0); [lia|]. destruct (cmd =? 8); lia.
Qed.

Lemma command_frame_bytes (cmd args : Z) :
  0 <= cmd < 256 -> 0 <= args < 2 ^ 32 ->
  Forall is_byte (command_frame cmd args).
Proof.
  intros Hc Ha. unfold command_frame.
  pose proof (index_byte_range cmd Hc).
  repeat constructor; try (apply Z.mod_pos_bound; lia); try lia;
    try (apply Z.div_pos; lia); try (apply Z.div_lt_upper_bound; lia).
  - apply checksum_is_byte.
  - apply checksum_is_byte.
Qed.

Lemma bind_Returned {A B : Type} (m : M A) (k : A -> M B) s a s1 :
  m s = Returned a s1 -> bind m k s = k a s1.
Proof. intros E. unfold bind. now rewrite E. Qed.

Lemma sent_sent (e1 e2 : list event) (s : state) :
  sent e2 (sent e1 s) = sent (e1 ++ e2) s.
Proof. unfold sent. cbn. now rewrite app_assoc. Qed.

Section Command.

Variable sd : card.

Lemma SPI1_Transmit_eq (d : Z) (s : state) :
  SPI1_Transmit sd d s = Returned (rx sd (trace s ++ [ETx (u8 d)])) (sent [ETx (u8 d)] s).
Proof. reflexivity. Qed.

(** What a call of [SD_SendCommand] does, in closed form. *)
Lemma SD_SendCommand_eq (cmd args : Z) (s : state) :
  SD_SendCommand sd cmd args s =
  Returned (rx sd (trace s ++ command_events cmd args))
           (logged (response_log cmd (rx sd (trace s ++ command_events cmd args)))
                   (sent (command_events cmd args) s)).
Proof.
  unfold SD_SendCommand.
  assert (Ecs : (if cmd =? SD_GO_IDLE_STATE then SPI1_Transmit sd 0x95
                 else if cmd =? SD_SEND_IF_COND then SPI1_Transmit sd 0x87
                 else SPI1_Transmit sd 0xff) = SPI1_Transmit sd (checksum cmd)).
  { unfold checksum, SD_GO_IDLE_STATE, SD_SEND_IF_COND.
    destruct (cmd =? 0); [reflexivity|]. destruct (cmd =? 8); reflexivity. }
  rewrite Ecs.
  do 8 (rewrite (bind_Returned _ _ _ _ _ (SPI1_Transmit_eq _ _)); cbv beta).
  rewrite !sent_sent. unfold dprint, printf, bind, ret.
  cbn [trace sent app]. rewrite <- !app_assoc. cbn [app].
  rewrite (u8_small _ (checksum_is_byte cmd)).
  unfold logged, response_log. cbn [console isSDHC mem trace].
  rewrite <- app_assoc. reflexivity.
Qed.

End Command.

(** ** Preorders on states *)

Lemma extends_refl (s : state) : extends s s.
Proof. split; exists []; now rewrite app_nil_r. Qed.

Lemma extends_trans (s1 s2 s3 : state) :
  extends s1 s2 -> extends s2 s3 -> extends s1 s3.
Proof.
  intros [[e1 He1] [l1 Hl1]] [[e2 He2] [l2 Hl2]]. split.
  - exists (e1 ++ e2). now rewrite He2, He1, app_assoc.
  - exists (l1 ++ l2). now rewrite Hl2, Hl1, app_assoc.
Qed.

Lemma follows_refl (s : state) : follows s s.
Proof. split; [reflexivity|apply extends_refl]. Qed.

Lemma follows_trans (s1 s2 s3 : state) :
  follows s1 s2 -> follows s2 s3 -> follows s1 s3.
Proof.
  intros [F1 E1] [F2 E2]. split.
  - now rewrite F2.
  - eapply extends_trans; eassumption.
Qed.

Lemma follows_sent (e : list event) (s : state) : follows s (sent e s).
Proof.
  split; [reflexivity|]. split; [now exists e|].
  exists []. cbn. now rewrite app_nil_r.
Qed.

Lemma follows_logged (l : list print_event) (s : state) : follows s (logged l s).
Proof.
  split; [reflexivity|]. split; [|now exists l].
  exists []. cbn. now rewrite app_nil_r.
Qed.

Lemma follows_set_mem (m : Z -> Z) (s : state) : follows s (set_mem m s).
Proof. split; [reflexivity|]. split; exists []; cbn; now rewrite app_nil_r. Qed.

(** ** Routines that respect a preorder *)

Section Respects.

Variable R : state -> state -> Prop.
Hypothesis R_refl : forall s, R s s.
Hypothesis R_trans : forall s1 s2 s3, R s1 s2 -> R s2 s3 -> R s1 s3.

Lemma respects_ret {A : Type} (a : A) : respects R (ret a).
Proof. intros s. apply R_refl. Qed.

Lemma respects_halt {A : Type} : respects R (@halt A).
Proof. intros s. apply R_refl. Qed.

Lemma respects_out_of_fuel {A : Type} : respects R (@out_of_fuel A).
Proof. intros s. apply R_refl. Qed.

Lemma respects_bind {A B : Type} (m : M A) (k : A -> M B) :
  respects R m -> (forall a, respects R (k a)) -> respects R (bind m k).
Proof.
  intros Hm Hk s. specialize (Hm s). unfold bind.
  destruct (m s) as [a s'| s' | s']; cbn in *; try assumption.
  eapply R_trans; [exact Hm|apply Hk].
Qed.

Lemma respects_when (c : bool) (body : M unit) :
  respects R body -> respects R (when c body).
Proof. intros H. destruct c; [exact H|apply respects_ret]. Qed.

Lemma respects_for_range (n : nat) (body : Z -> M unit) :
  (forall i, respects R (body i)) -> forall i, respects R (for_range n i body).
Proof.
  intros Hb. induction n as [|n IH]; intros i; cbn [for_range].
  - apply respects_ret.
  - apply respects_bind; [apply Hb|intros _; apply IH].
Qed.

End Respects.

(** One step of a proof that a routine follows: split a sequence,
    a conditional or a guarded block. *)
Ltac follow_step :=
  first
    [ apply (respects_bind follows follows_trans); [|intros ?]
    | apply (respects_when follows follows_refl)
    | apply (respects_ret follows follows_refl)
    | apply (respects_halt follows follows_refl)
    | apply (respects_out_of_fuel follows follows_refl)
    | match goal with
      | |- respects follows (if ?c then _ else _) => destruct c
      end ].

Create HintDb sd_follows.

Ltac follow := repeat (solve [auto with sd_follows] || follow_step).

Section Follows.

Variable sd : card.

Lemma printf_follows (fmt : string) (args : list Z) : respects follows (printf fmt args).
Proof. intros s. apply follows_logged. Qed.

Lemma print_follows (fmt : string) (args : list Z) : respects follows (print fmt args).
Proof. apply printf_follows. Qed.

Lemma dprint_follows (fmt : string) (args : list Z) : respects follows (dprint fmt args).
Proof. unfold dprint. follow_step; apply printf_follows. Qed.

Lemma SPI1_Init_follows : respects follows SPI1_Init.
Proof. intros s. apply follows_sent. Qed.

Lemma SPI1_Select_follows : respects follows SPI1_Select.
Proof. intros s. apply follows_sent. Qed.

Lemma SPI1_Deselect_follows : respects follows SPI1_Deselect.
Proof. intros s. apply follows_sent. Qed.

Lemma TIMER_Delay_follows (ms : Z) : respects follows (TIMER_Delay ms).
Proof. intros s. apply follows_sent. Qed.

Lemma SPI1_Transmit_follows (d : Z) : respects follows (SPI1_Transmit sd d).
Proof. intros s. apply follows_sent. Qed.

Lemma SPI1_ReadBuffer_follows (buf len : Z) : respects follows (SPI1_ReadBuffer sd buf len).
Proof.
  intros s. cbn. eapply follows_trans; [apply follows_sent|apply follows_set_mem].
Qed.

Lemma SPI1_SendBuffer_follows (buf len : Z) : respects follows (SPI1_SendBuffer buf len).
Proof. intros s. apply follows_sent. Qed.

Lemma get_isSDHC_follows : respects follows get_isSDHC.
Proof. intros s. apply follows_refl. Qed.

Lemma SD_SendCommand_follows (cmd args : Z) : respects follows (SD_SendCommand sd cmd args).
Proof.
  intros s. rewrite SD_SendCommand_eq. cbn [final].
  eapply follows_trans; [apply follows_sent|apply follows_logged].
Qed.

Hint Resolve printf_follows print_follows dprint_follows SPI1_Init_follows
  SPI1_Select_follows SPI1_Deselect_follows TIMER_Delay_follows
  SPI1_Transmit_follows SPI1_ReadBuffer_follows SPI1_SendBuffer_follows
  get_isSDHC_follows SD_SendCommand_follows : sd_follows.

Lemma SD_GetResponseR3orR7_follows : respects follows (SD_GetResponseR3orR7 sd).
Proof. unfold SD_GetResponseR3orR7. follow. Qed.

Lemma print_buf_follows (buf : list Z) : respects follows (print_buf buf).
Proof.
  unfold print_buf. follow_step; [|follow].
  apply (respects_for_range follows follows_refl follows_trans). intros i. follow.
Qed.

Lemma poll_loop_follows (n : nat) : forall i, respects follows (poll_loop sd n i).
Proof.
  induction n as [|n IH]; intros i; cbn [poll_loop]; follow.
Qed.

Lemma wait_data_token_follows (fuel : nat) : respects follows (wait_data_token sd fuel).
Proof. induction fuel as [|fuel IH]; cbn [wait_data_token]; follow. Qed.

Lemma wait_not_busy_follows (fuel : nat) : respects follows (wait_not_busy sd fuel).
Proof. induction fuel as [|fuel IH]; cbn [wait_not_busy]; follow. Qed.

Hint Resolve wait_data_token_follows wait_not_busy_follows : sd_follows.

Lemma read_blocks_follows (fuel count : nat) :
  forall buf, respects follows (read_blocks sd fuel count buf).
Proof.
  induction count as [|count IH]; intros buf; cbn [read_blocks]; follow.
Qed.

Lemma write_command_follows (fuel : nat) (sector : Z) :
  respects follows (write_command sd fuel sector).
Proof. induction fuel as [|fuel IH]; cbn [write_command]; follow. Qed.

Lemma write_blocks_follows (count : nat) :
  forall buf, respects follows (write_blocks sd count buf).
Proof.
  induction count as [|count IH]; intros buf; cbn [write_blocks]; follow.
Qed.

Hint Resolve read_blocks_follows write_command_follows write_blocks_follows
  SD_GetResponseR3orR7_follows print_buf_follows poll_loop_follows : sd_follows.

Lemma SD_ReadSectors_follows (fuel : nat) (buf sector count : Z) :
  respects follows (SD_ReadSectors sd fuel buf sector count).
Proof. unfold SD_ReadSectors. follow. Qed.

Lemma SD_WriteSectors_follows (fuel : nat) (buf sector count : Z) :
  respects follows (SD_WriteSectors sd fuel buf sector count).
Proof. unfold SD_WriteSectors. follow. Qed.

End Follows.

#[global] Hint Resolve printf_follows print_follows dprint_follows SPI1_Init_follows
  SPI1_Select_follows SPI1_Deselect_follows TIMER_Delay_follows
  SPI1_Transmit_follows SPI1_ReadBuffer_follows SPI1_SendBuffer_follows
  get_isSDHC_follows SD_SendCommand_follows
  wait_data_token_follows wait_not_busy_follows
  read_blocks_follows write_command_follows write_blocks_follows
  SD_GetResponseR3orR7_follows print_buf_follows poll_loop_follows : sd_follows.

(** ** Exact runs *)

Lemma runs_events_eq {A : Type} (m : M A) h mu r e e' :
  runs m h mu r e -> e = e' -> runs m h mu r e'.
Proof. now intros H <-. Qed.

Lemma runs_history_eq {A : Type} (m : M A) h h' mu r e :
  runs m h mu r e -> h = h' -> runs m h' mu r e.
Proof. now intros H <-. Qed.

Lemma runs_ret {A : Type} (a : A) h mu : runs (ret a) h mu (Ret a) [].
Proof. intros s Ht Hm. cbn. now rewrite app_nil_r. Qed.

Lemma runs_halt {A : Type} h mu : runs (@halt A) h mu Halt [].
Proof. intros s Ht Hm. cbn. now rewrite app_nil_r. Qed.

Lemma runs_out_of_fuel {A : Type} h mu : runs (@out_of_fuel A) h mu Fuel [].
Proof. intros s Ht Hm. cbn. now rewrite app_nil_r. Qed.

Lemma runs_bind {A B : Type} (m : M A) (k : A -> M B) h mu a e1 r e2 :
  runs m h mu (Ret a) e1 ->
  runs (k a) (h ++ e1) mu r e2 ->
  runs (bind m k) h mu r (e1 ++ e2).
Proof.
  intros Hm Hk s Ht Hmu. destruct (Hm s Ht Hmu) as (E & T & U).
  unfold bind. destruct (m s) as [a' s'|s'|s']; cbn in E; try discriminate.
  injection E as ->. cbn in T, U.
  destruct (Hk s' T U) as (E' & T' & U').
  rewrite app_assoc. auto.
Qed.

Lemma runs_bind_silent {A B : Type} (m : M A) (k : A -> M B) h mu a r e :
  runs m h mu (Ret a) [] ->
  runs (k a) h mu r e ->
  runs (bind m k) h mu r e.
Proof.
  intros Hm Hk. apply (runs_events_eq _ _ _ _ ([] ++ e)); [|reflexivity].
  eapply runs_bind; [exact Hm|]. now rewrite app_nil_r.
Qed.

Lemma runs_bind_halt {A B : Type} (m : M A) (k : A -> M B) h mu e :
  runs m h mu Halt e -> runs (bind m k) h mu Halt e.
Proof.
  intros Hm s Ht Hmu. destruct (Hm s Ht Hmu) as (E & T & U).
  unfold bind. destruct (m s) as [a' s'|s'|s']; cbn in E; try discriminate.
  cbn in *. auto.
Qed.

Lemma runs_bind_fuel {A B : Type} (m : M A) (k : A -> M B) h mu e :
  runs m h mu Fuel e -> runs (bind m k) h mu Fuel e.
Proof.
  intros Hm s Ht Hmu. destruct (Hm s Ht Hmu) as (E & T & U).
  unfold bind. destruct (m s) as [a' s'|s'|s']; cbn in E; try discriminate.
  cbn in *. auto.
Qed.

Lemma runs_returned {A : Type} (m : M A) h mu a e s :
  runs m h mu (Ret a) e -> trace s = h -> mem s = mu ->
  exists s', m s = Returned a s' /\ trace s' = h ++ e /\ mem s' = mu.
Proof.
  intros Hm Ht Hmu. destruct (Hm s Ht Hmu) as (E & T & U).
  destruct (m s) as [a' s'|s'|s']; cbn in E; try discriminate.
  injection E as ->. now exists s'.
Qed.

Lemma runs_halted {A : Type} (m : M A) h mu e s :
  runs m h mu Halt e -> trace s = h -> mem s = mu ->
  exists s', m s = Halted s' /\ trace s' = h ++ e /\ mem s' = mu.
Proof.
  intros Hm Ht Hmu. destruct (Hm s Ht Hmu) as (E & T & U).
  destruct (m s) as [a' s'|s'|s']; cbn in E; try discriminate.
  now exists s'.
Qed.

Create HintDb sd_runs.
Create HintDb sd_silent.

(** One step of a run: a call that prints only, or a call that uses
    the link. *)
Ltac run_step :=
  first
    [ eapply runs_bind_silent; [solve [auto with sd_silent]|]
    | eapply runs_bind; [solve [auto with sd_runs]|] ].

Section Runs.

Variable sd : card.

(** *** Collaborator calls *)

Lemma SPI1_Init_runs h mu : runs SPI1_Init h mu (Ret tt) [EInit].
Proof. intros s <- <-. cbn. auto. Qed.

Lemma SPI1_Select_runs h mu : runs SPI1_Select h mu (Ret tt) [ESelect].
Proof. intros s <- <-. cbn. auto. Qed.

Lemma SPI1_Deselect_runs h mu : runs SPI1_Deselect h mu (Ret tt) [EDeselect].
Proof. intros s <- <-. cbn. auto. Qed.

Lemma TIMER_Delay_runs ms h mu : runs (TIMER_Delay ms) h mu (Ret tt) [EDelay ms].
Proof. intros s <- <-. cbn. auto. Qed.

Lemma SPI1_Transmit_runs d h mu :
  runs (SPI1_Transmit sd d) h mu (Ret (rx sd (h ++ [ETx (u8 d)]))) [ETx (u8 d)].
Proof. intros s <- <-. cbn. auto. Qed.

Lemma SPI1_SendBuffer_runs buf len h mu :
  runs (SPI1_SendBuffer buf len) h mu (Ret tt) [ESendBuffer (load mu buf (Z.to_nat len))].
Proof. intros s <- <-. cbn. auto. Qed.

Lemma printf_runs fmt args h mu : runs (printf fmt args) h mu (Ret tt) [].
Proof. intros s <- <-. cbn. now rewrite app_nil_r. Qed.

Lemma dprint_runs fmt args h mu : runs (dprint fmt args) h mu (Ret tt) [].
Proof.
  unfold dprint. eapply runs_bind_silent; apply printf_runs.
Qed.

Lemma when_runs c body h mu :
  runs body h mu (Ret tt) [] -> runs (when c body) h mu (Ret tt) [].
Proof. intros H. destruct c; [exact H|apply runs_ret]. Qed.

Lemma for_range_print_runs (n : nat) (f : Z -> list Z) fmt h mu :
  forall i, runs (for_range n i (fun i => print fmt (f i))) h mu (Ret tt) [].
Proof.
  induction n as [|n IH]; intros i; cbn [for_range].
  - apply runs_ret.
  - eapply runs_bind_silent; [apply printf_runs|apply IH].
Qed.

Lemma print_buf_runs buf h mu : runs (print_buf buf) h mu (Ret tt) [].
Proof.
  unfold print_buf. eapply runs_bind_silent.
  - apply (for_range_print_runs 4 (fun i => [nth (Z.to_nat i) buf 0])).
  - apply printf_runs.
Qed.

(** *** Command layer *)

Lemma SD_SendCommand_runs cmd args h mu :
  runs (SD_SendCommand sd cmd args) h mu
       (Ret (rx sd (h ++ command_events cmd args))) (command_events cmd args).
Proof. intros s <- <-. rewrite SD_SendCommand_eq. cbn. auto. Qed.

Lemma SD_GetResponseR3orR7_runs h mu :
  runs (SD_GetResponseR3orR7 sd) h mu
       (Ret (0, [rx sd (h ++ filler 1); rx sd (h ++ filler 2);
                 rx sd (h ++ filler 3); rx sd (h ++ filler 4)]))
       (filler 4).
Proof.
  intros s <- <-. unfold SD_GetResponseR3orR7, bind, SPI1_Transmit, ret.
  cbn. rewrite <- !app_assoc. cbn. auto.
Qed.

Lemma sync_runs (n : nat) h mu :
  forall i, runs (for_range n i (fun _ => SPI1_Transmit sd 0xff ;; ret tt)) h mu
                 (Ret tt) (filler n).
Proof.
  revert h. induction n as [|n IH]; intros h i; cbn [for_range].
  - apply runs_ret.
  - change (filler (S n)) with (([ETx (u8 0xff)] ++ []) ++ filler n).
    eapply runs_bind; [|apply IH].
    eapply runs_bind; [apply SPI1_Transmit_runs|apply runs_ret].
Qed.

Hint Resolve SPI1_Init_runs SPI1_Select_runs SPI1_Deselect_runs TIMER_Delay_runs
  SPI1_Transmit_runs SPI1_SendBuffer_runs SD_SendCommand_runs
  SD_GetResponseR3orR7_runs sync_runs : sd_runs.

Hint Resolve printf_runs dprint_runs when_runs print_buf_runs : sd_silent.

(** *** Initialisation *)

Lemma bring_up_runs h mu : runs (bring_up sd) h mu (Ret tt) bringup_events.
Proof.
  eapply runs_events_eq.
  - unfold bring_up. do 8 run_step.
    eapply runs_bind_silent.
    { apply when_runs. eapply runs_bind_silent; auto with sd_silent. }
    do 4 run_step. apply print_buf_runs.
  - unfold bringup_events. cbn [app]. rewrite ?app_nil_r. reflexivity.
Qed.

Lemma polls_S (n : nat) : polls (S n) = poll_events ++ polls n.
Proof. reflexivity. Qed.

Lemma polls_1 : polls 1 = poll_events.
Proof. unfold polls. cbn [repeat List.concat]. apply app_nil_r. Qed.

Lemma polls_shift h (k : nat) (tail : list event) :
  (h ++ poll_events) ++ polls k ++ tail = h ++ polls (S k) ++ tail.
Proof. rewrite polls_S, <- !app_assoc. reflexivity. Qed.

(** An attempt the card answers with 0 leaves the loop. *)
Lemma poll_loop_done (n : nat) (i : Z) h mu :
  rx sd (h ++ poll_command_events) = 0 ->
  runs (poll_loop sd (S n) i) h mu (Ret tt) poll_events.
Proof.
  intros E. eapply runs_events_eq.
  - cbn [poll_loop]. do 3 run_step.
    replace (rx sd ((h ++ command_events SD_APP_CMD 0)
                      ++ command_events SD_ACMD_SEND_OP_COND SD_ACMD41_HCS))
      with 0 by (rewrite <- app_assoc; symmetry; exact E).
    apply runs_ret.
  - unfold poll_events, poll_command_events. rewrite app_nil_r, <- !app_assoc.
    reflexivity.
Qed.

(** A failed attempt other than the tenth goes round again. *)
Lemma poll_loop_again (n : nat) (i : Z) h mu r e :
  rx sd (h ++ poll_command_events) <> 0 -> i <> 9 ->
  runs (poll_loop sd n (i + 1)) (h ++ poll_events) mu r e ->
  runs (poll_loop sd (S n) i) h mu r (poll_events ++ e).
Proof.
  intros E Hi Hrest. eapply runs_events_eq.
  - cbn [poll_loop]. do 3 run_step.
    replace (rx sd ((h ++ command_events SD_APP_CMD 0)
                      ++ command_events SD_ACMD_SEND_OP_COND SD_ACMD41_HCS))
      with (rx sd (h ++ poll_command_events))
      by (unfold poll_command_events; rewrite <- app_assoc; reflexivity).
    apply Z.eqb_neq in E. rewrite E.
    apply Z.eqb_neq in Hi. rewrite Hi.
    eapply runs_bind_silent; [apply runs_ret|].
    eapply runs_history_eq; [exact Hrest|].
    unfold poll_events, poll_command_events. rewrite <- !app_assoc. reflexivity.
  - unfold poll_events, poll_command_events. rewrite <- !app_assoc. reflexivity.
Qed.

(** The tenth failed attempt ends in [while(1);]. *)
Lemma poll_loop_stuck (n : nat) h mu :
  rx sd (h ++ poll_command_events) <> 0 ->
  runs (poll_loop sd (S n) 9) h mu Halt poll_events.
Proof.
  intros E. eapply runs_events_eq.
  - cbn [poll_loop]. do 3 run_step.
    replace (rx sd ((h ++ command_events SD_APP_CMD 0)
                      ++ command_events SD_ACMD_SEND_OP_COND SD_ACMD41_HCS))
      with (rx sd (h ++ poll_command_events))
      by (unfold poll_command_events; rewrite <- app_assoc; reflexivity).
    apply Z.eqb_neq in E. rewrite E.
    apply runs_bind_halt. cbn [Z.eqb Pos.eqb when].
    eapply runs_bind_silent; [apply dprint_runs|apply runs_halt].
  - unfold poll_events, poll_command_events. rewrite app_nil_r, <- !app_assoc.
    reflexivity.
Qed.

(** [j] failures followed by a success: [j + 1] iterations. *)
Lemma poll_loop_success (j : nat) :
  forall (n : nat) (i : Z) h mu,
    (j < n)%nat -> i + Z.of_nat n = 10 ->
    (forall k, (k < j)%nat -> rx sd (h ++ polls k ++ poll_command_events) <> 0) ->
    rx sd (h ++ polls j ++ poll_command_events) = 0 ->
    runs (poll_loop sd n i) h mu (Ret tt) (polls (S j)).
Proof.
  induction j as [|j IH]; intros n i h mu Hn Hi Hfail Hok.
  - destruct n as [|n]; [lia|].
    apply (runs_events_eq _ _ _ _ poll_events); [|now rewrite polls_1].
    apply poll_loop_done. exact Hok.
  - destruct n as [|n]; [lia|]. rewrite polls_S.
    apply poll_loop_again.
    + apply (Hfail 0%nat). lia.
    + lia.
    + apply IH; [lia|lia| |].
      * intros k Hk. rewrite polls_shift.
        apply Hfail. lia.
      * rewrite polls_shift. exact Hok.
Qed.

(** Failure on every remaining attempt: the loop ends in [while(1);]
    after the last of them. *)
Lemma poll_loop_failure (n : nat) :
  forall (i : Z) h mu,
    (0 < n)%nat -> i + Z.of_nat n = 10 ->
    (forall k, (k < n)%nat -> rx sd (h ++ polls k ++ poll_command_events) <> 0) ->
    runs (poll_loop sd n i) h mu Halt (polls n).
Proof.
  induction n as [|n IH]; intros i h mu Hn Hi Hfail; [lia|].
  destruct n as [|n].
  - replace i with 9 by lia.
    apply (runs_events_eq _ _ _ _ poll_events); [|now rewrite polls_1].
    apply poll_loop_stuck. apply (Hfail 0%nat). lia.
  - rewrite polls_S. apply poll_loop_again.
    + apply (Hfail 0%nat). lia.
    + lia.
    + apply IH; [lia|lia|].
      intros k Hk. rewrite polls_shift.
      apply Hfail. lia.
Qed.

Lemma runs_bind_returned {A B : Type} (m : M A) (k : A -> M B) h mu a e s :
  runs m h mu (Ret a) e -> trace s = h -> mem s = mu ->
  exists s1, bind m k s = k a s1 /\ trace s1 = h ++ e /\ mem s1 = mu.
Proof.
  intros Hm Ht Hmu. destruct (runs_returned _ _ _ _ _ _ Hm Ht Hmu) as (s1 & E & T & U).
  exists s1. unfold bind. rewrite E. auto.
Qed.

Lemma runs_bind_halted {A B : Type} (m : M A) (k : A -> M B) h mu e s :
  runs m h mu Halt e -> trace s = h -> mem s = mu ->
  exists s1, bind m k s = Halted s1 /\ trace s1 = h ++ e /\ mem s1 = mu.
Proof.
  intros Hm Ht Hmu. destruct (runs_halted _ _ _ _ _ Hm Ht Hmu) as (s1 & E & T & U).
  exists s1. unfold bind. rewrite E. auto.
Qed.

Lemma runs_out_of_fuel_bind {A B : Type} (m : M A) (k : A -> M B) h mu e s :
  runs m h mu Fuel e -> trace s = h -> mem s = mu ->
  exists s1, bind m k s = OutOfFuel s1 /\ trace s1 = h ++ e /\ mem s1 = mu.
Proof.
  intros Hm Ht Hmu. destruct (Hm s Ht Hmu) as (E & T & U). unfold bind.
  destruct (m s) as [a' s'|s'|s']; cbn in E; try discriminate.
  now exists s'.
Qed.

Lemma capacity_mask (x : Z) : (Z.land x 0x40 =? 0) = negb (Z.testbit x 6).
Proof.
  destruct (Z.testbit x 6) eqn:B; cbn [negb].
  - apply Z.eqb_neq. intros E.
    assert (H : Z.testbit (Z.land x 64) 6 = true)
      by (rewrite Z.land_spec, B; reflexivity).
    rewrite E in H. discriminate.
  - apply Z.eqb_eq. apply Z.bits_inj'. intros n Hn.
    rewrite Z.land_spec, Z.bits_0. change 64 with (2 ^ 6).
    rewrite Z.pow2_bits_eqb by lia.
    destruct (Z.eqb_spec 6 n) as [<-|_].
    + now rewrite B.
    + apply andb_false_r.
Qed.

(** The capacity read: four response bytes after READ_OCR, the flag
    from bit 6 of the first, then deselect. *)
Lemma read_capacity_eq (s : state) :
  exists s',
    read_capacity sd s = Returned tt s' /\
    trace s' = trace s ++ capacity_events /\
    mem s' = mem s /\
    isSDHC s' =
      capacity_flag (rx sd (trace s ++ command_events SD_READ_OCR 0 ++ [ETx 0xff])).
Proof.
  unfold read_capacity.
  match goal with
  | |- context [bind (SD_SendCommand sd ?c ?a) ?k s] =>
      destruct (runs_bind_returned (SD_SendCommand sd c a) k _ _ _ _ s
                  (SD_SendCommand_runs c a (trace s) (mem s)) eq_refl eq_refl)
        as (s1 & -> & T1 & M1)
  end.
  match goal with
  | |- context [bind (SD_GetResponseR3orR7 sd) ?k s1] =>
      destruct (runs_bind_returned (SD_GetResponseR3orR7 sd) k _ _ _ _ s1
                  (SD_GetResponseR3orR7_runs (trace s1) (mem s1)) eq_refl eq_refl)
        as (s2 & -> & T2 & M2)
  end.
  cbn [snd nth].
  match goal with
  | |- context [bind (when ?c ?b) ?k s2] =>
      destruct (runs_bind_returned (when c b) k _ _ _ _ s2
                  (when_runs c b (trace s2) (mem s2) (dprint_runs _ _ _ _))
                  eq_refl eq_refl) as (s3 & -> & T3 & M3)
  end.
  match goal with
  | |- context [bind (dprint ?f ?a) ?k s3] =>
      destruct (runs_bind_returned (dprint f a) k _ _ _ _ s3
                  (dprint_runs f a (trace s3) (mem s3)) eq_refl eq_refl)
        as (s4 & -> & T4 & M4)
  end.
  match goal with
  | |- context [bind (print_buf ?b) ?k s4] =>
      destruct (runs_bind_returned (print_buf b) k _ _ _ _ s4
                  (print_buf_runs b (trace s4) (mem s4)) eq_refl eq_refl)
        as (s5 & -> & T5 & M5)
  end.
  rewrite !app_nil_r in *.
  assert (T : trace s5 = trace s ++ command_events SD_READ_OCR 0 ++ filler 4)
    by (rewrite T5, T4, T3, T2, T1, <- app_assoc; reflexivity).
  assert (U : mem s5 = mem s) by congruence.
  rewrite capacity_mask, negb_involutive, T1, <- app_assoc.
  change (filler 1) with [ETx 0xff].
  unfold capacity_flag, capacity_events.
  destruct (Z.testbit _ 6);
    unfold bind, dprint, printf, bind, SPI1_Deselect;
    eexists; (split; [reflexivity|]); cbn; rewrite T, U, <- !app_assoc; auto.
Qed.

(** *** Write path *)

Lemma write_attempts_S (n : nat) (address : Z) :
  write_attempts (S n) address = write_attempt address ++ write_attempts n address.
Proof. reflexivity. Qed.

Lemma write_attempts_1 (address : Z) : write_attempts 1 address = write_attempt address.
Proof. unfold write_attempts. cbn [repeat List.concat]. apply app_nil_r. Qed.

Lemma write_attempts_shift h (k : nat) (address : Z) (tail : list event) :
  (h ++ write_attempt address) ++ write_attempts k address ++ tail
  = h ++ write_attempts (S k) address ++ tail.
Proof. rewrite write_attempts_S, <- !app_assoc. reflexivity. Qed.

Lemma write_command_done (fuel : nat) (address : Z) h mu :
  rx sd (h ++ command_events SD_WRITE_MULTIPLE_BLOCK address) = 0 ->
  runs (write_command sd (S fuel) address) h mu (Ret tt) (write_attempt address).
Proof.
  intros E. eapply runs_events_eq.
  - cbn [write_command]. do 2 run_step. rewrite E. apply runs_ret.
  - unfold write_attempt. rewrite app_nil_r. reflexivity.
Qed.

Lemma write_command_again (fuel : nat) (address : Z) h mu r e :
  rx sd (h ++ command_events SD_WRITE_MULTIPLE_BLOCK address) <> 0 ->
  runs (write_command sd fuel address) (h ++ write_attempt address) mu r e ->
  runs (write_command sd (S fuel) address) h mu r (write_attempt address ++ e).
Proof.
  intros E Hrest. eapply runs_events_eq.
  - cbn [write_command]. do 2 run_step.
    apply Z.eqb_neq in E. rewrite E. cbn [negb].
    eapply runs_history_eq; [exact Hrest|].
    unfold write_attempt. rewrite <- !app_assoc. reflexivity.
  - unfold write_attempt. rewrite <- !app_assoc. reflexivity.
Qed.

(** [j] refused attempts followed by an accepted one. *)
Lemma write_command_success (address : Z) (j : nat) :
  forall (fuel : nat) h mu,
    (j < fuel)%nat ->
    (forall k, (k < j)%nat ->
       rx sd (h ++ write_attempts k address
                ++ command_events SD_WRITE_MULTIPLE_BLOCK address) <> 0) ->
    rx sd (h ++ write_attempts j address
             ++ command_events SD_WRITE_MULTIPLE_BLOCK address) = 0 ->
    runs (write_command sd fuel address) h mu (Ret tt) (write_attempts (S j) address).
Proof.
  induction j as [|j IH]; intros fuel h mu Hf Hfail Hok.
  - destruct fuel as [|fuel]; [lia|]. rewrite write_attempts_1.
    apply write_command_done. exact Hok.
  - destruct fuel as [|fuel]; [lia|]. rewrite write_attempts_S.
    apply write_command_again.
    + apply (Hfail 0%nat). lia.
    + apply IH; [lia| |].
      * intros k Hk. rewrite write_attempts_shift. apply Hfail. lia.
      * rewrite write_attempts_shift. exact Hok.
Qed.

(** A card that refuses every attempt keeps the loop going for as long
    as there is fuel. *)
Lemma write_command_starved (address : Z) (fuel : nat) :
  forall h mu,
    (forall k, (k < fuel)%nat ->
       rx sd (h ++ write_attempts k address
                ++ command_events SD_WRITE_MULTIPLE_BLOCK address) <> 0) ->
    runs (write_command sd fuel address) h mu Fuel (write_attempts fuel address).
Proof.
  induction fuel as [|fuel IH]; intros h mu Hfail.
  - apply runs_out_of_fuel.
  - rewrite write_attempts_S. apply write_command_again.
    + apply (Hfail 0%nat). lia.
    + apply IH. intros k Hk. rewrite write_attempts_shift. apply Hfail. lia.
Qed.

Lemma write_blocks_runs (count : nat) :
  forall buf h mu,
    runs (write_blocks sd count buf) h mu (Ret tt) (payload_events mu count buf).
Proof.
  induction count as [|count IH]; intros buf h mu.
  - apply runs_ret.
  - eapply runs_events_eq.
    + cbn [write_blocks]. do 4 run_step. apply IH.
    + reflexivity.
Qed.

(** The busy-wait sends filler bytes only; it either sees a non-zero
    byte or uses up the fuel. *)
Lemma wait_not_busy_runs (fuel : nat) :
  forall h mu,
    exists k, runs (wait_not_busy sd fuel) h mu (Ret tt) (filler k)
              \/ runs (wait_not_busy sd fuel) h mu Fuel (filler k).
Proof.
  induction fuel as [|fuel IH]; intros h mu.
  - exists 0%nat. right. apply runs_out_of_fuel.
  - destruct (rx sd (h ++ [ETx (u8 0xff)]) =? 0) eqn:E.
    + destruct (IH (h ++ [ETx (u8 0xff)]) mu) as [k [H|H]];
        exists (S k); [left|right];
        (apply (runs_events_eq _ _ _ _ ([ETx (u8 0xff)] ++ filler k)); [|reflexivity];
         cbn [wait_not_busy]; run_step; rewrite E; exact H).
    + exists 1%nat. left.
      apply (runs_events_eq _ _ _ _ ([ETx (u8 0xff)] ++ [])); [|reflexivity].
      cbn [wait_not_busy]. run_step. rewrite E. apply runs_ret.
Qed.

End Runs.

#[global] Hint Resolve SPI1_Init_runs SPI1_Select_runs SPI1_Deselect_runs TIMER_Delay_runs
  SPI1_Transmit_runs SPI1_SendBuffer_runs SD_SendCommand_runs
  SD_GetResponseR3orR7_runs sync_runs : sd_runs.

#[global] Hint Resolve printf_runs dprint_runs when_runs print_buf_runs : sd_silent.

(** ** Return values *)



(** ** Histories *)

Lemma added_app (h e : list event) : added h (h ++ e) = e.
Proof.
  unfold added. induction h as [|x h IH]; [reflexivity|exact IH].
Qed.

Lemma first_frame_of_command (cmd args : Z) (pre rest : list event) :
  0 <= cmd < 256 -> 0 <= args < 2 ^ 32 -> tx_bytes pre = [] ->
  firstn 6 (tx_bytes (pre ++ command_events cmd args ++ rest)) = command_frame cmd args.
Proof.
  intros Hc Ha Hpre. unfold command_events.
  rewrite !tx_bytes_app, Hpre, tx_bytes_map, wire_bytes_frame by assumption.
  reflexivity.
Qed.

(** ** The flag is not consulted *)

Lemma flag_blind_ret {A : Type} (a : A) : flag_blind (ret a).
Proof. intros v s. reflexivity. Qed.

Lemma flag_blind_out_of_fuel {A : Type} : flag_blind (@out_of_fuel A).
Proof. intros v s. reflexivity. Qed.

Lemma flag_blind_bind {A B : Type} (m : M A) (k : A -> M B) :
  flag_blind m -> (forall a, flag_blind (k a)) -> flag_blind (bind m k).
Proof.
  intros Hm Hk v s. unfold bind. rewrite Hm.
  destruct (m s) as [a s1|s1|s1]; cbn; [apply Hk|reflexivity|reflexivity].
Qed.

Lemma final_lift {A : Type} (f : state -> state) (o : outcome A) :
  final (lift_outcome f o) = f (final o).
Proof. destruct o; reflexivity. Qed.

Lemma ending_of_lift {A : Type} (f : state -> state) (o : outcome A) :
  ending_of (lift_outcome f o) = ending_of o.
Proof. destruct o; reflexivity. Qed.

Section WriteBlind.

Variable sd : card.

Lemma SPI1_Transmit_blind d : flag_blind (SPI1_Transmit sd d).
Proof. intros v s. reflexivity. Qed.

Lemma SD_SendCommand_blind cmd args : flag_blind (SD_SendCommand sd cmd args).
Proof. intros v s. rewrite !SD_SendCommand_eq. reflexivity. Qed.

Lemma wait_not_busy_blind fuel : flag_blind (wait_not_busy sd fuel).
Proof.
  induction fuel as [|fuel IH]; cbn [wait_not_busy].
  - apply flag_blind_out_of_fuel.
  - apply flag_blind_bind; [apply SPI1_Transmit_blind|].
    intros r. destruct (r =? 0); [exact IH|apply flag_blind_ret].
Qed.

Lemma write_command_blind fuel sector : flag_blind (write_command sd fuel sector).
Proof.
  induction fuel as [|fuel IH]; cbn [write_command].
  - apply flag_blind_out_of_fuel.
  - apply flag_blind_bind; [apply SD_SendCommand_blind|]. intros r.
    apply flag_blind_bind; [intros v s; reflexivity|]. intros _.
    destruct (negb (r =? 0)); [exact IH|apply flag_blind_ret].
Qed.

Lemma write_blocks_blind count : forall buf, flag_blind (write_blocks sd count buf).
Proof.
  induction count as [|count IH]; intros buf; cbn [write_blocks].
  - apply flag_blind_ret.
  - repeat (apply flag_blind_bind;
            [first [apply SPI1_Transmit_blind | intros v s; reflexivity]|intros _]).
    apply IH.
Qed.

Lemma SD_WriteSectors_blind fuel buf sector count :
  flag_blind (SD_WriteSectors sd fuel buf sector count).
Proof.
  unfold SD_WriteSectors.
  apply flag_blind_bind; [intros v s; reflexivity|intros _].
  apply flag_blind_bind; [apply write_command_blind|intros _].
  apply flag_blind_bind; [apply SPI1_Transmit_blind|intros _].
  apply flag_blind_bind; [apply write_blocks_blind|intros _].
  apply flag_blind_bind; [apply SPI1_Transmit_blind|intros _].
  apply flag_blind_bind; [apply SPI1_Transmit_blind|intros _].
  apply flag_blind_bind; [apply wait_not_busy_blind|intros _].
  apply flag_blind_bind; [intros v s; reflexivity|intros _].
  apply flag_blind_ret.
Qed.

End WriteBlind.

(** * The command layer *)

(** C1. For every command index and every 32-bit argument,
    [SD_SendCommand] returns after putting on the link, in this order,
    the six bytes of the command frame and two filler bytes.  The frame
    is the index byte [0x40 | cmd], the four argument bytes most
    significant first (they are bytes and recombine to the argument),
    and a checksum byte that is 0x95 for command 0, 0x87 for command 8
    and 0xFF for every other command. *)
Theorem C1_command_frame (sd : card) (cmd args : Z) (s : state) :
  0 <= cmd < 256 -> 0 <= args < 2 ^ 32 ->
  exists frame r s',
    SD_SendCommand sd cmd args s = Returned r s' /\
    trace s' = trace s ++ map ETx frame ++ [ETx 0xff; ETx 0xff] /\
    firstn 6 (tx_bytes (added (trace s) (trace s'))) = frame /\
    List.length frame = 6%nat /\
    Forall is_byte frame /\
    frame = [Z.lor 0x40 cmd;
             args / 2 ^ 24; (args / 2 ^ 16) mod 256; (args / 2 ^ 8) mod 256;
             args mod 256;
             if cmd =? 0 then 0x95 else if cmd =? 8 then 0x87 else 0xff] /\
    frame_argument frame = args.
Proof.
  intros Hc Ha. exists (command_frame cmd args).
  eexists. eexists. split; [apply SD_SendCommand_eq|].
  cbn [trace logged sent]. unfold command_events.
  rewrite wire_bytes_frame by assumption. rewrite map_app.
  split; [reflexivity|]. split.
  - rewrite added_app, tx_bytes_app, tx_bytes_map. reflexivity.
  - split; [reflexivity|]. split; [now apply command_frame_bytes|].
    split; [reflexivity|now apply frame_argument_correct].
Qed.

(** The CMD8 frame of the bring-up: 48 00 00 01 AA 87. *)
Lemma C1_command_frame_witness :
  (0 <= 8 < 256 /\ 0 <= 0x1aa < 2 ^ 32) /\
  exists frame r s',
    SD_SendCommand (card_const 1) 8 0x1aa power_on = Returned r s' /\
    trace s' = trace power_on ++ map ETx frame ++ [ETx 0xff; ETx 0xff] /\
    firstn 6 (tx_bytes (added (trace power_on) (trace s'))) = frame /\
    List.length frame = 6%nat /\
    Forall is_byte frame /\
    frame = [0x48; 0; 0; 1; 0xaa; 0x87] /\
    frame_argument frame = 0x1aa.
Proof.
  split; [lia|]. apply (C1_command_frame (card_const 1) 8 0x1aa power_on); lia.
Defined.

Lemma snoc_neq {A : Type} (l : list A) (x : A) : l ++ [x] <> l.
Proof.
  intros E. apply (f_equal (@List.length A)) in E.
  rewrite length_app in E. cbn in E. lia.
Qed.

(** C6. For every command, [SD_SendCommand] puts exactly two filler
    bytes (0xFF) on the link after the six frame bytes, the last of
    which is the checksum, and returns as status the byte received in
    reply to the second filler.  The byte received in reply to the first
    filler is dropped: a card that answers anything else to the first
    filler gets the same status returned. *)
Theorem C6_second_reply_is_status (sd : card) (cmd args : Z) (s : state) :
  let frame := map ETx (firstn 6 (wire_bytes cmd args)) in
  let first_probe := trace s ++ frame ++ [ETx 0xff] in
  let second_probe := first_probe ++ [ETx 0xff] in
  exists s',
    SD_SendCommand sd cmd args s = Returned (rx sd second_probe) s' /\
    trace s' = second_probe /\
    last (firstn 6 (wire_bytes cmd args)) 0 = checksum cmd /\
    forall v,
      rx (with_reply sd first_probe v) first_probe = u8 v /\
      ending_of (SD_SendCommand (with_reply sd first_probe v) cmd args s)
      = Ret (rx sd second_probe).
Proof.
  intros frame first_probe second_probe.
  assert (E : trace s ++ command_events cmd args = second_probe).
  { unfold second_probe, first_probe, frame, command_events, wire_bytes.
    cbn [firstn map app]. rewrite <- !app_assoc. reflexivity. }
  eexists. rewrite SD_SendCommand_eq, E.
  split; [reflexivity|]. split; [exact E|]. split; [reflexivity|].
  intros v. split.
  - unfold rx, with_reply. cbn [reply].
    destruct (list_eq_dec event_eq_dec first_probe first_probe); [reflexivity|easy].
  - rewrite SD_SendCommand_eq, E. cbn [ending_of]. f_equal.
    unfold rx, with_reply. cbn [reply].
    destruct (list_eq_dec event_eq_dec second_probe first_probe) as [C|_];
      [|reflexivity].
    exfalso. exact (snoc_neq _ _ C).
Qed.

(** * Initialisation *)

Section Initialisation.

Variable sd : card.

(** Whatever happens later, a run of [SD_Init] begins with the
    bring-up sequence. *)
Lemma SD_Init_begins (s : state) :
  exists rest, trace (final (SD_Init sd s)) = trace s ++ bringup_events ++ rest.
Proof.
  unfold SD_Init.
  destruct (runs_bind_returned (bring_up sd)
              (fun _ => poll_loop sd 10 0 ;; read_capacity sd) _ _ _ _ s
              (bring_up_runs sd (trace s) (mem s)) eq_refl eq_refl)
    as (s1 & -> & T1 & _).
  pose proof (poll_loop_follows sd 10 0 s1) as (_ & (e & He) & _).
  unfold bind. destruct (poll_loop sd 10 0 s1) as [[] s2|s2|s2]; cbn [final] in *.
  - destruct (read_capacity_eq sd s2) as (s3 & -> & T3 & _).
    exists (e ++ capacity_events). cbn [final].
    rewrite T3, He, T1, <- !app_assoc. reflexivity.
  - exists e. rewrite He, T1, <- app_assoc. reflexivity.
  - exists e. rewrite He, T1, <- app_assoc. reflexivity.
Qed.

(** [j] refused polls and an accepted one: the card is ready. *)
Lemma SD_Init_ready (j : nat) (s : state) :
  (j < 10)%nat ->
  (forall k, (k < j)%nat -> poll_status sd (trace s) k <> 0) ->
  poll_status sd (trace s) j = 0 ->
  exists s',
    SD_Init sd s = Returned tt s' /\
    trace s' = trace s ++ bringup_events ++ polls (S j) ++ capacity_events /\
    isSDHC s' = capacity_flag (ocr_byte0 sd (trace s) (S j)) /\
    mem s' = mem s.
Proof.
  intros Hj Hfail Hok. unfold SD_Init.
  destruct (runs_bind_returned (bring_up sd)
              (fun _ => poll_loop sd 10 0 ;; read_capacity sd) _ _ _ _ s
              (bring_up_runs sd (trace s) (mem s)) eq_refl eq_refl)
    as (s1 & -> & T1 & M1).
  assert (Hloop : runs (poll_loop sd 10 0) (trace s1) (mem s1) (Ret tt) (polls (S j))).
  { apply poll_loop_success; [lia|lia| |].
    - intros k Hk. rewrite T1, <- app_assoc. apply Hfail. exact Hk.
    - rewrite T1, <- app_assoc. exact Hok. }
  destruct (runs_bind_returned (poll_loop sd 10 0) (fun _ => read_capacity sd)
              _ _ _ _ s1 Hloop eq_refl eq_refl) as (s2 & -> & T2 & M2).
  destruct (read_capacity_eq sd s2) as (s3 & E3 & T3 & M3 & F3).
  exists s3. split; [exact E3|]. split; [|split].
  - rewrite T3, T2, T1, <- !app_assoc. reflexivity.
  - rewrite F3, T2, T1. unfold ocr_byte0. rewrite <- !app_assoc. reflexivity.
  - congruence.
Qed.

(** Ten refused polls: the driver hangs. *)
Lemma SD_Init_hangs (s : state) :
  (forall k, (k < 10)%nat -> poll_status sd (trace s) k <> 0) ->
  exists s',
    SD_Init sd s = Halted s' /\
    trace s' = trace s ++ bringup_events ++ polls 10.
Proof.
  intros Hfail. unfold SD_Init.
  destruct (runs_bind_returned (bring_up sd)
              (fun _ => poll_loop sd 10 0 ;; read_capacity sd) _ _ _ _ s
              (bring_up_runs sd (trace s) (mem s)) eq_refl eq_refl)
    as (s1 & -> & T1 & M1).
  assert (Hloop : runs (poll_loop sd 10 0) (trace s1) (mem s1) Halt (polls 10)).
  { apply poll_loop_failure; [lia|lia|].
    intros k Hk. rewrite T1, <- app_assoc. apply Hfail. exact Hk. }
  destruct (runs_bind_halted (poll_loop sd 10 0) (fun _ => read_capacity sd)
              _ _ _ s1 Hloop eq_refl eq_refl) as (s2 & -> & T2 & M2).
  exists s2. split; [reflexivity|].
  rewrite T2, T1, <- !app_assoc. reflexivity.
Qed.

(** A run that returns went through the capacity read after some
    number of polls. *)
Lemma SD_Init_returned (s s' : state) (u : unit) :
  SD_Init sd s = Returned u s' ->
  exists h,
    trace s' = h ++ capacity_events /\
    isSDHC s' = capacity_flag (rx sd (h ++ command_events SD_READ_OCR 0 ++ [ETx 0xff])).
Proof.
  unfold SD_Init, bind. intros E.
  destruct (bring_up sd s) as [[] s1|s1|s1]; try discriminate.
  destruct (poll_loop sd 10 0 s1) as [[] s2|s2|s2]; try discriminate.
  destruct (read_capacity_eq sd s2) as (s3 & E3 & T3 & M3 & F3).
  rewrite E3 in E. inversion E; subst s'. exists (trace s2). split; assumption.
Qed.

End Initialisation.

(** C9. Every run of [SD_Init], from any state and with any card,
    starts by setting up and selecting the link, then transmits exactly
    20 filler bytes (0xFF), and only then the first command frame, that
    of CMD0 (40 00 00 00 00 95); every other command frame of the
    bring-up comes later still. *)
Theorem C9_synchronisation (sd : card) (s : state) :
  exists rest,
    trace (final (SD_Init sd s))
    = trace s ++ [EInit; ESelect] ++ repeat (ETx 0xff) 20
        ++ map ETx [0x40; 0; 0; 0; 0; 0x95] ++ rest /\
    command_frame SD_GO_IDLE_STATE 0 = [0x40; 0; 0; 0; 0; 0x95].
Proof.
  destruct (SD_Init_begins sd s) as (rest & E).
  eexists. split; [|reflexivity]. rewrite E. unfold bringup_events.
  rewrite <- !app_assoc. reflexivity.
Qed.

(** C2. Let the card answer the ACMD41 of the polling attempts 1 to
    N-1 with a non-zero status and that of attempt N with 0x00, for an N
    between 1 and 10 ([poll_status] counts attempts from 0).  Then
    [SD_Init] makes exactly N polling iterations (APP_CMD, ACMD41, a
    delay of 20 ms each), goes on to the capacity read, sets the
    capacity flag from the OCR and returns.  If the status is non-zero
    on all 10 attempts, [SD_Init] ends in its [while(1);] after the tenth
    iteration and does not return. *)
Theorem C2_polling_outcome (sd : card) (s : state) :
  (forall N : nat,
     (1 <= N <= 10)%nat ->
     (forall k, (k < N - 1)%nat -> poll_status sd (trace s) k <> 0) ->
     poll_status sd (trace s) (N - 1) = 0 ->
     exists s',
       SD_Init sd s = Returned tt s' /\
       trace s' = trace s ++ bringup_events ++ polls N ++ capacity_events /\
       isSDHC s' = capacity_flag (ocr_byte0 sd (trace s) N))
  /\
  ((forall k, (k < 10)%nat -> poll_status sd (trace s) k <> 0) ->
   exists s',
     SD_Init sd s = Halted s' /\
     trace s' = trace s ++ bringup_events ++ polls 10).
Proof.
  split.
  - intros N HN Hfail Hok. destruct N as [|j]; [lia|].
    replace (S j - 1)%nat with j in * by lia.
    destruct (SD_Init_ready sd j s ltac:(lia) Hfail Hok) as (s' & E & T & F & _).
    exists s'. auto.
  - apply SD_Init_hangs.
Qed.

(** A card that is ready on the third poll, and a card that never is. *)
Lemma C2_polling_outcome_witness :
  (exists s',
     SD_Init (card_zero_at 104 1) power_on = Returned tt s' /\
     trace s' = trace power_on ++ bringup_events ++ polls 3 ++ capacity_events /\
     isSDHC s' = capacity_flag (ocr_byte0 (card_zero_at 104 1) (trace power_on) 3))
  /\
  (exists s',
     SD_Init (card_const 1) power_on = Halted s' /\
     trace s' = trace power_on ++ bringup_events ++ polls 10).
Proof.
  split.
  - apply (proj1 (C2_polling_outcome (card_zero_at 104 1) power_on) 3%nat).
    + lia.
    + intros k Hk. destruct k as [|[|k]];
        [vm_compute; discriminate|vm_compute; discriminate|lia].
    + vm_compute. reflexivity.
  - apply (proj2 (C2_polling_outcome (card_const 1) power_on)).
    intros k _. change (u8 1 <> 0). vm_compute. discriminate.
Defined.

(** C5. When [SD_Init] returns, the last thing on the link is the
    READ_OCR issued after the polling, the four bytes of its response
    and the deselect, and the capacity flag is 1 (high capacity)
    exactly when bit 6 (mask 0x40) of the first of those four bytes is
    set, 0 (standard capacity) when it is clear.  In particular a first
    byte 0x40 gives 1 and a first byte 0x00 gives 0. *)
Theorem C5_capacity_flag (sd : card) (s s' : state) :
  SD_Init sd s = Returned tt s' ->
  exists h ocr0,
    trace s' = h ++ command_events SD_READ_OCR 0 ++ repeat (ETx 0xff) 4 ++ [EDeselect] /\
    ocr0 = rx sd (h ++ command_events SD_READ_OCR 0 ++ [ETx 0xff]) /\
    isSDHC s' = (if Z.testbit ocr0 6 then 1 else 0) /\
    (isSDHC s' = 1 <-> Z.land ocr0 0x40 <> 0) /\
    (ocr0 = 0x40 -> isSDHC s' = 1) /\
    (ocr0 = 0x00 -> isSDHC s' = 0).
Proof.
  intros E. destruct (SD_Init_returned sd s s' tt E) as (h & T & F).
  exists h. eexists. split; [exact T|]. split; [reflexivity|].
  unfold capacity_flag in F. split; [exact F|]. split; [|split].
  - pose proof (capacity_mask (rx sd (h ++ command_events SD_READ_OCR 0 ++ [ETx 255])))
      as Hm.
    rewrite F. destruct (Z.testbit _ 6); cbn [negb] in Hm.
    + apply Z.eqb_neq in Hm. split; [intros _; exact Hm|reflexivity].
    + apply Z.eqb_eq in Hm. split; [discriminate|intros C; now elim C].
  - intros E0. rewrite F, E0. reflexivity.
  - intros E0. rewrite F, E0. reflexivity.
Qed.

(** A card whose OCR starts with 0x40. *)
Lemma C5_capacity_flag_witness :
  exists s',
    SD_Init (card_zero_at 104 0x40) power_on = Returned tt s' /\
    exists h ocr0,
      trace s' = h ++ command_events SD_READ_OCR 0 ++ repeat (ETx 0xff) 4 ++ [EDeselect] /\
      ocr0 = rx (card_zero_at 104 0x40) (h ++ command_events SD_READ_OCR 0 ++ [ETx 0xff]) /\
      isSDHC s' = (if Z.testbit ocr0 6 then 1 else 0) /\
      (isSDHC s' = 1 <-> Z.land ocr0 0x40 <> 0) /\
      (ocr0 = 0x40 -> isSDHC s' = 1) /\
      (ocr0 = 0x00 -> isSDHC s' = 0).
Proof.
  destruct (SD_Init (card_zero_at 104 0x40) power_on) as [[] s'|s'|s'] eqn:E;
    [|vm_compute in E; discriminate|vm_compute in E; discriminate].
  exists s'. split; [reflexivity|].
  exact (C5_capacity_flag (card_zero_at 104 0x40) power_on s' E).
Defined.

(** * Block transfers *)

Lemma bind_assoc {A B C : Type} (m : M A) (k : A -> M B) (k' : B -> M C) s :
  bind (bind m k) k' s = bind m (fun a => bind (k a) k') s.
Proof. unfold bind. destruct (m s); reflexivity. Qed.

Lemma when_dprint_eq (c : bool) fmt args (s : state) :
  when c (dprint fmt args) s
  = Returned tt (logged (if c then [("SD: "%string, []); (fmt, args)] else []) s).
Proof.
  destruct c; unfold when, dprint, bind, printf, ret, logged; cbn.
  - now rewrite <- app_assoc.
  - destruct s. cbn. now rewrite app_nil_r.
Qed.

Section Transfers.

Variable sd : card.

(** A read starts with select and READ_MULTIPLE_BLOCK; the status of
    the command is printed, followed by an error line if it is not 0. *)
Lemma SD_ReadSectors_begins (fuel : nat) (buf sector count : Z) (s : state) :
  let address := read_address s sector in
  let status := rx sd (trace s ++ [ESelect] ++ command_events SD_READ_MULTIPLE_BLOCK address) in
  exists rest l,
    trace (final (SD_ReadSectors sd fuel buf sector count s))
    = trace s ++ [ESelect] ++ command_events SD_READ_MULTIPLE_BLOCK address ++ rest /\
    console (final (SD_ReadSectors sd fuel buf sector count s))
    = console s ++ response_log SD_READ_MULTIPLE_BLOCK status
        ++ (if status =? 0 then []
            else [("SD: "%string, []);
                  (("SD_READ_MULTIPLE_BLOCK error" ++ crlf)%string, [])])
        ++ l.
Proof.
  intros address status. unfold SD_ReadSectors.
  rewrite (bind_Returned get_isSDHC _ s (isSDHC s) s eq_refl).
  rewrite (bind_Returned SPI1_Select _ s tt (sent [ESelect] s) eq_refl).
  rewrite (bind_Returned _ _ _ _ _ (SD_SendCommand_eq sd _ _ _)).
  rewrite (bind_Returned _ _ _ _ _ (when_dprint_eq _ _ _ _)).
  cbv beta.
  match goal with
  | |- context [final (?m ?s3)] =>
      assert (H : respects follows m) by follow;
      destruct (H s3) as (_ & (e & He) & (l & Hl))
  end.
  exists e, l. rewrite He, Hl. cbn [trace console sent logged].
  fold (read_address s sector). fold address.
  replace (rx sd ((trace s ++ [ESelect]) ++ command_events SD_READ_MULTIPLE_BLOCK address))
    with status by (unfold status; now rewrite <- app_assoc).
  rewrite <- !app_assoc. destruct (status =? 0); auto.
Qed.

Lemma write_command_S (fuel : nat) (sector : Z) :
  write_command sd (S fuel) sector
  = (status <- SD_SendCommand sd SD_WRITE_MULTIPLE_BLOCK sector ;;
     TIMER_Delay 5 ;;
     if negb (status =? 0) then write_command sd fuel sector else ret tt).
Proof. reflexivity. Qed.

(** A write with fuel for at least one attempt starts with select and
    WRITE_MULTIPLE_BLOCK for the sector times 512; the status of the
    command is printed. *)
Lemma SD_WriteSectors_begins (fuel : nat) (buf sector count : Z) (s : state) :
  let address := u32 (sector * 512) in
  let status := rx sd (trace s ++ [ESelect] ++ command_events SD_WRITE_MULTIPLE_BLOCK address) in
  exists rest l,
    trace (final (SD_WriteSectors sd (S fuel) buf sector count s))
    = trace s ++ [ESelect] ++ command_events SD_WRITE_MULTIPLE_BLOCK address ++ rest /\
    console (final (SD_WriteSectors sd (S fuel) buf sector count s))
    = console s ++ response_log SD_WRITE_MULTIPLE_BLOCK status ++ l.
Proof.
  intros address status. unfold SD_WriteSectors.
  rewrite (bind_Returned SPI1_Select _ s tt (sent [ESelect] s) eq_refl).
  rewrite write_command_S, bind_assoc.
  rewrite (bind_Returned _ _ _ _ _ (SD_SendCommand_eq sd _ _ _)).
  cbv beta.
  match goal with
  | |- context [final (?m ?s3)] =>
      assert (H : respects follows m) by follow;
      destruct (H s3) as (_ & (e & He) & (l & Hl))
  end.
  exists e, l. rewrite He, Hl. cbn [trace console sent logged].
  fold address.
  replace (rx sd ((trace s ++ [ESelect]) ++ command_events SD_WRITE_MULTIPLE_BLOCK address))
    with status by (unfold status; now rewrite <- app_assoc).
  rewrite <- !app_assoc. auto.
Qed.

(** The command accepted at attempt [j + 1]: the attempts, one filler
    byte, the blocks, the stop token and a filler byte, then the
    busy-wait, which ends with deselect and the return of 0 or goes on
    until the fuel is used up. *)
Lemma SD_WriteSectors_accepted (j fuel : nat) (buf sector count : Z) h mu :
  let address := write_address sector in
  (j < fuel)%nat ->
  (forall k, (k < j)%nat -> write_status sd h address k <> 0) ->
  write_status sd h address j = 0 ->
  exists k,
    runs (SD_WriteSectors sd fuel buf sector count) h mu (Ret 0)
         ([ESelect] ++ write_events mu (S j) address buf (Z.to_nat count)
            ++ filler k ++ [EDeselect])
    \/ runs (SD_WriteSectors sd fuel buf sector count) h mu Fuel
         ([ESelect] ++ write_events mu (S j) address buf (Z.to_nat count)
            ++ filler k).
Proof.
  intros address Hj Hfail Hok.
  assert (Hcmd : runs (write_command sd fuel address) (h ++ [ESelect]) mu (Ret tt)
                      (write_attempts (S j) address)).
  { apply write_command_success; [exact Hj| |].
    - intros k Hk. rewrite <- app_assoc. apply Hfail. exact Hk.
    - rewrite <- app_assoc. exact Hok. }
  destruct (wait_not_busy_runs sd fuel
              (h ++ [ESelect] ++ write_events mu (S j) address buf (Z.to_nat count)) mu)
    as [k [Hw|Hw]]; exists k; [left|right].
  - eapply runs_events_eq.
    + unfold SD_WriteSectors. fold (write_address sector). fold address.
      run_step. eapply runs_bind; [exact Hcmd|]. run_step.
      eapply runs_bind; [apply write_blocks_runs|]. do 2 run_step.
      eapply runs_bind;
        [eapply runs_history_eq;
         [exact Hw|unfold write_events; rewrite <- !app_assoc; reflexivity]|].
      run_step. apply runs_ret.
    + unfold write_events. rewrite <- !app_assoc. reflexivity.
  - eapply runs_events_eq.
    + unfold SD_WriteSectors. fold (write_address sector). fold address.
      run_step. eapply runs_bind; [exact Hcmd|]. run_step.
      eapply runs_bind; [apply write_blocks_runs|]. do 2 run_step.
      apply runs_bind_fuel.
      eapply runs_history_eq;
        [exact Hw|unfold write_events; rewrite <- !app_assoc; reflexivity].
    + unfold write_events. rewrite <- !app_assoc. reflexivity.
Qed.

(** The command never accepted: nothing but attempts. *)
Lemma SD_WriteSectors_starved (fuel : nat) (buf sector count : Z) h mu :
  let address := write_address sector in
  (forall k, (k < fuel)%nat -> write_status sd h address k <> 0) ->
  runs (SD_WriteSectors sd fuel buf sector count) h mu Fuel
       ([ESelect] ++ write_attempts fuel address).
Proof.
  intros address Hfail. unfold SD_WriteSectors.
  fold (write_address sector). fold address.
  run_step. apply runs_bind_fuel. apply write_command_starved.
  intros k Hk. rewrite <- app_assoc. apply Hfail. exact Hk.
Qed.

End Transfers.

Lemma read_address_range (s : state) (sector : Z) :
  0 <= sector < 2 ^ 32 -> 0 <= read_address s sector < 2 ^ 32.
Proof.
  intros H. unfold read_address, u32.
  destruct (isSDHC s =? 0); [apply Z.mod_pos_bound; lia|exact H].
Qed.

Lemma write_address_range (sector : Z) : 0 <= write_address sector < 2 ^ 32.
Proof. unfold write_address, u32. apply Z.mod_pos_bound. lia. Qed.

(** C3, as the code has it.  For every 32-bit sector index,
    [SD_ReadSectors] selects the card and issues READ_MULTIPLE_BLOCK
    (frame byte 0x52) with an address taken from the stored capacity
    flag: when the flag is 0 (standard capacity) the address is the
    sector index times 512 reduced modulo 2^32, which is the sector
    index times 512 for every index below 2^23; when the flag is not 0
    (high capacity) it is the sector index unchanged.  This holds for
    every card and however far the transfer gets. *)
Theorem C3_read_address (sd : card) (fuel : nat) (buf sector count : Z) (s : state) :
  0 <= sector < 2 ^ 32 ->
  let s' := final (SD_ReadSectors sd fuel buf sector count s) in
  let address := if isSDHC s =? 0 then (sector * 512) mod 2 ^ 32 else sector in
  (exists rest,
     trace s' = trace s ++ [ESelect]
                  ++ map ETx (command_frame SD_READ_MULTIPLE_BLOCK address) ++ rest) /\
  first_argument s s' = address /\
  (isSDHC s = 0 -> sector < 2 ^ 23 -> first_argument s s' = sector * 512) /\
  (isSDHC s <> 0 -> first_argument s s' = sector).
Proof.
  intros Hs s' address.
  assert (Ea : address = read_address s sector) by reflexivity.
  assert (Ha : 0 <= address < 2 ^ 32) by (rewrite Ea; now apply read_address_range).
  destruct (SD_ReadSectors_begins sd fuel buf sector count s) as (rest & l & T & _).
  fold s' in T. rewrite <- Ea in T.
  assert (F : first_argument s s' = address).
  { unfold first_argument. rewrite T, added_app.
    rewrite (first_frame_of_command _ _ [ESelect]) by first [reflexivity | assumption
               | cbv [SD_READ_MULTIPLE_BLOCK SD_WRITE_MULTIPLE_BLOCK]; lia].
    now apply frame_argument_correct. }
  split; [|split; [exact F|split]].
  - exists ([ETx 0xff; ETx 0xff] ++ rest). rewrite T. unfold command_events.
    rewrite wire_bytes_frame by (assumption || (unfold SD_READ_MULTIPLE_BLOCK; lia)).
    rewrite map_app, <- !app_assoc. reflexivity.
  - intros E Hlt. rewrite F. unfold address. rewrite E. cbn [Z.eqb].
    apply Z.mod_small. lia.
  - intros NE. rewrite F. unfold address. apply Z.eqb_neq in NE. now rewrite NE.
Qed.

(** Sector 7 of a standard-capacity card is read at address 3584. *)
Lemma C3_read_address_witness :
  0 <= 7 < 2 ^ 32 /\
  first_argument power_on (final (SD_ReadSectors (card_const 0xfe) 1 0 7 1 power_on))
  = 3584.
Proof.
  split; [lia|].
  apply (proj1 (proj2 (C3_read_address (card_const 0xfe) 1 0 7 1 power_on ltac:(lia)))).
Defined.

(** Sector 2^23 of a card held to be standard capacity: the product
    2^32 does not fit the 32-bit argument and the address issued is 0. *)
Lemma C3_read_address_wraps :
  isSDHC power_on = 0 /\
  tx_bytes (trace (final (SD_ReadSectors (card_const 0xfe) 1 0 8388608 1 power_on)))
  = [0x52; 0; 0; 0; 0; 0xff; 0xff; 0xff; 0xff; 0xff; 0xff;
     0x4c; 0; 0; 0; 0; 0xff; 0xff; 0xff; 0xff] /\
  first_argument power_on (final (SD_ReadSectors (card_const 0xfe) 1 0 8388608 1 power_on))
  <> 8388608 * 512.
Proof.
  split; [reflexivity|]. split; [vm_compute; reflexivity|].
  vm_compute. discriminate.
Qed.

(** C4, as the code has it.  For every 32-bit sector index and
    whatever the capacity flag holds, [SD_WriteSectors] selects the card
    and issues WRITE_MULTIPLE_BLOCK (frame byte 0x59) with the sector
    index times 512 reduced modulo 2^32, which is the sector index times
    512 for every index below 2^23.  The flag is not consulted: started
    with any other value of the flag, the call has the same outcome in
    every respect (the same result, the same traffic on the link, the
    same console output, the same memory), and the flag keeps the value
    it was given. *)
Theorem C4_write_address (sd : card) (fuel : nat) (buf sector count : Z) (s : state) :
  0 <= sector < 2 ^ 32 ->
  let s' := final (SD_WriteSectors sd (S fuel) buf sector count s) in
  let address := (sector * 512) mod 2 ^ 32 in
  (exists rest,
     trace s' = trace s ++ [ESelect]
                  ++ map ETx (command_frame SD_WRITE_MULTIPLE_BLOCK address) ++ rest) /\
  first_argument s s' = address /\
  (sector < 2 ^ 23 -> first_argument s s' = sector * 512) /\
  (forall v,
     let o := SD_WriteSectors sd (S fuel) buf sector count (set_isSDHC v s) in
     o = lift_outcome (set_isSDHC v) (SD_WriteSectors sd (S fuel) buf sector count s) /\
     trace (final o) = trace s' /\
     console (final o) = console s' /\
     mem (final o) = mem s' /\
     isSDHC (final o) = v /\
     ending_of o = ending_of (SD_WriteSectors sd (S fuel) buf sector count s)).
Proof.
  intros Hs s' address.
  assert (Ea : address = write_address sector) by reflexivity.
  assert (Ha : 0 <= address < 2 ^ 32) by (rewrite Ea; apply write_address_range).
  destruct (SD_WriteSectors_begins sd fuel buf sector count s) as (rest & l & T & _).
  fold s' in T. fold (write_address sector) in T. rewrite <- Ea in T.
  assert (F : first_argument s s' = address).
  { unfold first_argument. rewrite T, added_app.
    rewrite (first_frame_of_command _ _ [ESelect]) by first [reflexivity | assumption
               | cbv [SD_READ_MULTIPLE_BLOCK SD_WRITE_MULTIPLE_BLOCK]; lia].
    now apply frame_argument_correct. }
  split; [|split; [exact F|split]].
  - exists ([ETx 0xff; ETx 0xff] ++ rest). rewrite T. unfold command_events.
    rewrite wire_bytes_frame by (assumption || (unfold SD_WRITE_MULTIPLE_BLOCK; lia)).
    rewrite map_app, <- !app_assoc. reflexivity.
  - intros Hlt. rewrite F. unfold address. apply Z.mod_small. lia.
  - intros v o. unfold o. rewrite SD_WriteSectors_blind.
    rewrite final_lift, ending_of_lift. repeat split.
Qed.

(** Sector 7 is written at address 3584 on a high-capacity card too. *)
Lemma C4_write_address_witness :
  0 <= 7 < 2 ^ 32 /\
  first_argument sdhc_ready
    (final (SD_WriteSectors (card_zero_at 9 1) 1 0 7 1 sdhc_ready)) = 3584.
Proof.
  split; [lia|].
  apply (proj1 (proj2 (C4_write_address (card_zero_at 9 1) 0 0 7 1 sdhc_ready ltac:(lia)))).
Defined.

(** Sector 2^23: the byte address 2^32 does not fit the 32-bit argument
    and the address issued is 0. *)
Lemma C4_write_address_wraps :
  firstn 6 (tx_bytes (trace (final (SD_WriteSectors (card_zero_at 9 1) 1 0 8388608 1
                                       sdhc_ready))))
  = [0x59; 0; 0; 0; 0; 0xff] /\
  first_argument sdhc_ready
    (final (SD_WriteSectors (card_zero_at 9 1) 1 0 8388608 1 sdhc_ready))
  <> 8388608 * 512.
Proof.
  split; [vm_compute; reflexivity|]. vm_compute. discriminate.
Qed.

(** C7. Let the card answer the WRITE_MULTIPLE_BLOCK command of
    attempts 1 to N-1 with a non-zero status and that of attempt N with
    0 ([write_status] counts attempts from 0).  Then [SD_WriteSectors]
    issues the command exactly N times, each time followed by the delay
    of 5 ms, so with the delay between consecutive attempts, and only
    then starts the data phase: one filler byte, the blocks, the stop
    token.  N is bounded by nothing but the fuel given to the model: a
    card that never answers 0 is sent the command for as long as there
    is fuel, and the call does not return.  Two refusals and an
    acceptance are the case N = 3. *)
Theorem C7_write_retry (sd : card) (buf sector count : Z) (s : state) :
  let address := write_address sector in
  (forall N fuel : nat,
     (1 <= N <= fuel)%nat ->
     (forall k, (k < N - 1)%nat -> write_status sd (trace s) address k <> 0) ->
     write_status sd (trace s) address (N - 1) = 0 ->
     let o := SD_WriteSectors sd fuel buf sector count s in
     let before_wait :=
       trace s ++ [ESelect] ++ write_attempts N address ++ [ETx 0xff]
         ++ payload_events (mem s) (Z.to_nat count) buf ++ [ETx 0xfd; ETx 0xff] in
     exists k,
       (ending_of o = Ret 0 /\
        trace (final o) = before_wait ++ repeat (ETx 0xff) k ++ [EDeselect])
       \/ (ending_of o = Fuel /\
           trace (final o) = before_wait ++ repeat (ETx 0xff) k))
  /\
  ((forall k, write_status sd (trace s) address k <> 0) ->
   forall fuel : nat,
     let o := SD_WriteSectors sd fuel buf sector count s in
     ending_of o = Fuel /\
     trace (final o) = trace s ++ [ESelect] ++ write_attempts fuel address)
  /\
  write_attempts 3 address
  = command_events SD_WRITE_MULTIPLE_BLOCK address ++ [EDelay 5]
    ++ command_events SD_WRITE_MULTIPLE_BLOCK address ++ [EDelay 5]
    ++ command_events SD_WRITE_MULTIPLE_BLOCK address ++ [EDelay 5].
Proof.
  intros address. split; [|split].
  - intros N fuel HN Hfail Hok o before_wait. destruct N as [|j]; [lia|].
    replace (S j - 1)%nat with j in * by lia.
    destruct (SD_WriteSectors_accepted sd j fuel buf sector count (trace s) (mem s)
                ltac:(lia) Hfail Hok) as [k [H|H]];
      exists k; [left|right];
      destruct (H s eq_refl eq_refl) as (E & T & _);
      (split; [exact E|]); fold o in T; rewrite T;
      unfold before_wait, write_events, filler; fold address;
      rewrite <- !app_assoc; reflexivity.
  - intros Hfail fuel o.
    destruct (SD_WriteSectors_starved sd fuel buf sector count (trace s) (mem s)
                ltac:(intros k _; apply Hfail) s eq_refl eq_refl) as (E & T & _).
    split; [exact E|]. fold o in T. rewrite T. reflexivity.
  - unfold write_attempts, write_attempt. cbn [repeat List.concat].
    rewrite <- !app_assoc, app_nil_r. reflexivity.
Qed.

(** A card that refuses the write command twice and accepts it the
    third time. *)
Lemma C7_write_retry_witness :
  let o := SD_WriteSectors (card_zero_at 27 1) 3 0 2 1 sdhc_ready in
  let before_wait :=
    trace sdhc_ready ++ [ESelect] ++ write_attempts 3 (write_address 2) ++ [ETx 0xff]
      ++ payload_events (mem sdhc_ready) (Z.to_nat 1) 0 ++ [ETx 0xfd; ETx 0xff] in
  exists k,
    (ending_of o = Ret 0 /\
     trace (final o) = before_wait ++ repeat (ETx 0xff) k ++ [EDeselect])
    \/ (ending_of o = Fuel /\
        trace (final o) = before_wait ++ repeat (ETx 0xff) k).
Proof.
  apply (proj1 (C7_write_retry (card_zero_at 27 1) 0 2 1 sdhc_ready) 3%nat 3%nat).
  - lia.
  - intros k Hk. destruct k as [|[|k]];
      [vm_compute; discriminate|vm_compute; discriminate|lia].
  - vm_compute. reflexivity.
Defined.



(** C10. No call of [SD_ReadSectors] or [SD_WriteSectors], whatever
    its arguments, the card and the point it gets to, changes the
    capacity flag. *)
Theorem C10_flag_untouched (sd : card) (fuel : nat) (buf sector count : Z) (s : state) :
  isSDHC (final (SD_ReadSectors sd fuel buf sector count s)) = isSDHC s /\
  isSDHC (final (SD_WriteSectors sd fuel buf sector count s)) = isSDHC s.
Proof.
  split.
  - apply (SD_ReadSectors_follows sd fuel buf sector count s).
  - apply (SD_WriteSectors_follows sd fuel buf sector count s).
Qed.

(** * Further properties *)

(** ** Filler bytes and the polling loops *)

Lemma filler_shift (h : list event) (k : nat) :
  h ++ filler (S k) = (h ++ [ETx 0xff]) ++ filler k.
Proof. rewrite <- app_assoc. reflexivity. Qed.

Lemma filler_traffic (n : nat) : forallb is_traffic (filler n) = true.
Proof. induction n as [|n IH]; [reflexivity|exact IH]. Qed.

Lemma forallb_seq_shift (f : nat -> bool) (n : nat) :
  forall a, forallb f (seq (S a) n) = forallb (fun k => f (S k)) (seq a n).
Proof.
  induction n as [|n IH]; intros a; [reflexivity|].
  cbn [seq forallb]. now rewrite IH.
Qed.

Lemma forallb_pointwise {A : Type} (f g : A -> bool) (l : list A) :
  (forall x, f x = g x) -> forallb f l = forallb g l.
Proof.
  intros H. induction l as [|x l IH]; [reflexivity|].
  cbn [forallb]. now rewrite H, IH.
Qed.

Section Loops.

Variable sd : card.
Variable p : Z -> bool.

Lemma starves_S (h : list event) (n : nat) :
  starves sd p h (S n) = negb (p (rx sd (h ++ filler 1))) && starves sd p (h ++ [ETx 0xff]) n.
Proof.
  unfold starves. cbn [seq forallb]. f_equal.
  rewrite forallb_seq_shift. apply forallb_pointwise.
  intros k. now rewrite filler_shift.
Qed.

Lemma waits_0 (h : list event) : waits sd p h 0 = p (rx sd (h ++ filler 1)).
Proof. reflexivity. Qed.

Lemma waits_S (h : list event) (n : nat) :
  waits sd p h (S n) = negb (p (rx sd (h ++ filler 1))) && waits sd p (h ++ [ETx 0xff]) n.
Proof.
  unfold waits. fold (starves sd p h (S n)). fold (starves sd p (h ++ [ETx 255]) n).
  rewrite starves_S, <- andb_assoc, (filler_shift h (S n)). reflexivity.
Qed.

End Loops.

Section LoopRuns.

Variable sd : card.

Lemma wait_data_token_found (n : nat) :
  forall (fuel : nat) h mu,
    (n < fuel)%nat -> waits sd is_token h n = true ->
    runs (wait_data_token sd fuel) h mu (Ret tt) (filler (S n)).
Proof.
  induction n as [|n IH]; intros fuel h mu Hf Hw;
    (destruct fuel as [|fuel]; [lia|]); cbn [wait_data_token].
  - rewrite waits_0 in Hw. unfold is_token in Hw.
    apply (runs_events_eq _ _ _ _ ([ETx (u8 0xff)] ++ [])); [|reflexivity].
    run_step. change (h ++ [ETx (u8 255)]) with (h ++ filler 1).
    rewrite Hw. apply runs_ret.
  - rewrite waits_S in Hw. apply andb_true_iff in Hw as [H0 Hw].
    unfold is_token in H0.
    apply (runs_events_eq _ _ _ _ ([ETx (u8 0xff)] ++ filler (S n))); [|reflexivity].
    run_step. change (h ++ [ETx (u8 255)]) with (h ++ filler 1) at 1.
    rewrite H0. apply IH; [lia|exact Hw].
Qed.

Lemma wait_data_token_starved (fuel : nat) :
  forall h mu,
    starves sd is_token h fuel = true ->
    runs (wait_data_token sd fuel) h mu Fuel (filler fuel).
Proof.
  induction fuel as [|fuel IH]; intros h mu Hs; cbn [wait_data_token].
  - apply runs_out_of_fuel.
  - rewrite starves_S in Hs. apply andb_true_iff in Hs as [H0 Hs].
    unfold is_token in H0.
    apply (runs_events_eq _ _ _ _ ([ETx (u8 0xff)] ++ filler fuel)); [|reflexivity].
    run_step. change (h ++ [ETx (u8 255)]) with (h ++ filler 1) at 1.
    rewrite H0. apply IH. exact Hs.
Qed.

Lemma wait_not_busy_found (n : nat) :
  forall (fuel : nat) h mu,
    (n < fuel)%nat -> waits sd is_ready h n = true ->
    runs (wait_not_busy sd fuel) h mu (Ret tt) (filler (S n)).
Proof.
  induction n as [|n IH]; intros fuel h mu Hf Hw;
    (destruct fuel as [|fuel]; [lia|]); cbn [wait_not_busy].
  - rewrite waits_0 in Hw. unfold is_ready in Hw. apply negb_true_iff in Hw.
    apply (runs_events_eq _ _ _ _ ([ETx (u8 0xff)] ++ [])); [|reflexivity].
    run_step. change (h ++ [ETx (u8 255)]) with (h ++ filler 1).
    rewrite Hw. apply runs_ret.
  - rewrite waits_S in Hw. apply andb_true_iff in Hw as [H0 Hw].
    unfold is_ready in H0. rewrite negb_involutive in H0.
    apply (runs_events_eq _ _ _ _ ([ETx (u8 0xff)] ++ filler (S n))); [|reflexivity].
    run_step. change (h ++ [ETx (u8 255)]) with (h ++ filler 1) at 1.
    rewrite H0. apply IH; [lia|exact Hw].
Qed.

Lemma wait_not_busy_starved (fuel : nat) :
  forall h mu,
    starves sd is_ready h fuel = true ->
    runs (wait_not_busy sd fuel) h mu Fuel (filler fuel).
Proof.
  induction fuel as [|fuel IH]; intros h mu Hs; cbn [wait_not_busy].
  - apply runs_out_of_fuel.
  - rewrite starves_S in Hs. apply andb_true_iff in Hs as [H0 Hs].
    unfold is_ready in H0. rewrite negb_involutive in H0.
    apply (runs_events_eq _ _ _ _ ([ETx (u8 0xff)] ++ filler fuel)); [|reflexivity].
    run_step. change (h ++ [ETx (u8 255)]) with (h ++ filler 1) at 1.
    rewrite H0. apply IH. exact Hs.
Qed.

End LoopRuns.

(** ** Stable relations *)

Lemma stable_refl R : stable R -> forall s, R s s.
Proof. now intros (H & _). Qed.

Lemma stable_trans R : stable R -> forall s1 s2 s3, R s1 s2 -> R s2 s3 -> R s1 s3.
Proof. now intros (_ & H & _). Qed.

Lemma stable_sent R :
  stable R -> forall e s, forallb is_traffic e = true -> R s (sent e s).
Proof. now intros (_ & _ & H & _). Qed.

Lemma stable_logged R : stable R -> forall l s, R s (logged l s).
Proof. now intros (_ & _ & _ & H & _). Qed.

Lemma stable_set_isSDHC R : stable R -> forall v s, R s (set_isSDHC v s).
Proof. now intros (_ & _ & _ & _ & H). Qed.

Lemma traffic_only_stable : stable traffic_only.
Proof.
  repeat split.
  - intros s. exists []. now rewrite app_nil_r.
  - intros s1 s2 s3 (e1 & E1 & T1) (e2 & E2 & T2). exists (e1 ++ e2).
    rewrite E2, E1, app_assoc, forallb_app, T1, T2. auto.
  - intros e s H. now exists e.
  - intros l s. exists []. cbn. now rewrite app_nil_r.
  - intros v s. exists []. cbn. now rewrite app_nil_r.
Qed.

Lemma mem_outside_stable (lo hi : Z) : stable (mem_outside lo hi).
Proof.
  repeat split.
  - intros s1 s2 s3 H1 H2 a Ha. now rewrite H2, H1.
Qed.

Lemma mem_outside_sent (lo hi : Z) (e : list event) (s : state) :
  mem_outside lo hi s (sent e s).
Proof. intros a _. reflexivity. Qed.

Create HintDb sd_stable.

#[global] Hint Resolve traffic_only_stable mem_outside_stable : sd_stable.

(** One step of a proof that a routine respects a stable relation. *)
Ltac stable_step :=
  match goal with
  | HR : stable ?R |- respects ?R (bind _ _) =>
      apply (respects_bind R (stable_trans R HR)); [|intros ?]
  | HR : stable ?R |- respects ?R (when _ _) =>
      apply (respects_when R (stable_refl R HR))
  | HR : stable ?R |- respects ?R (ret _) =>
      apply (respects_ret R (stable_refl R HR))
  | HR : stable ?R |- respects ?R halt =>
      apply (respects_halt R (stable_refl R HR))
  | HR : stable ?R |- respects ?R out_of_fuel =>
      apply (respects_out_of_fuel R (stable_refl R HR))
  | HR : stable ?R |- respects ?R (fun s => Returned tt (set_isSDHC _ s)) =>
      intros ?; apply (stable_set_isSDHC R HR)
  | |- respects _ (if ?c then _ else _) => destruct c
  end.

Ltac stabilise := repeat (solve [auto with sd_stable] || stable_step).

Section Stable.

Variable R : state -> state -> Prop.
Hypothesis HR : stable R.
Variable sd : card.

Lemma printf_stable fmt args : respects R (printf fmt args).
Proof. intros s. apply (stable_logged R HR). Qed.

Lemma TIMER_Delay_stable ms : respects R (TIMER_Delay ms).
Proof. intros s. now apply (stable_sent R HR). Qed.

Lemma SPI1_Transmit_stable d : respects R (SPI1_Transmit sd d).
Proof. intros s. now apply (stable_sent R HR). Qed.

Lemma SPI1_SendBuffer_stable buf len : respects R (SPI1_SendBuffer buf len).
Proof. intros s. now apply (stable_sent R HR). Qed.

Lemma get_isSDHC_stable : respects R get_isSDHC.
Proof. intros s. apply (stable_refl R HR). Qed.

Hint Resolve printf_stable TIMER_Delay_stable SPI1_Transmit_stable
  SPI1_SendBuffer_stable get_isSDHC_stable : sd_stable.

Lemma dprint_stable fmt args : respects R (dprint fmt args).
Proof. unfold dprint. stabilise. Qed.

Lemma print_stable fmt args : respects R (print fmt args).
Proof. apply printf_stable. Qed.

Hint Resolve dprint_stable print_stable : sd_stable.

Lemma SD_SendCommand_stable cmd args : respects R (SD_SendCommand sd cmd args).
Proof.
  unfold SD_SendCommand. stabilise.
Qed.

Lemma SD_GetResponseR3orR7_stable : respects R (SD_GetResponseR3orR7 sd).
Proof. unfold SD_GetResponseR3orR7. stabilise. Qed.

Lemma print_buf_stable buf : respects R (print_buf buf).
Proof.
  unfold print_buf. stable_step; [|stabilise].
  apply (respects_for_range R (stable_refl R HR) (stable_trans R HR)).
  intros i. stabilise.
Qed.

Hint Resolve SD_SendCommand_stable SD_GetResponseR3orR7_stable print_buf_stable
  : sd_stable.

Lemma poll_loop_stable (n : nat) : forall i, respects R (poll_loop sd n i).
Proof. induction n as [|n IH]; intros i; cbn [poll_loop]; stabilise. Qed.

Lemma wait_data_token_stable (fuel : nat) : respects R (wait_data_token sd fuel).
Proof. induction fuel as [|fuel IH]; cbn [wait_data_token]; stabilise. Qed.

Lemma wait_not_busy_stable (fuel : nat) : respects R (wait_not_busy sd fuel).
Proof. induction fuel as [|fuel IH]; cbn [wait_not_busy]; stabilise. Qed.

Lemma write_command_stable (fuel : nat) sector : respects R (write_command sd fuel sector).
Proof. induction fuel as [|fuel IH]; cbn [write_command]; stabilise. Qed.

Lemma write_blocks_stable (count : nat) : forall buf, respects R (write_blocks sd count buf).
Proof. induction count as [|count IH]; intros buf; cbn [write_blocks]; stabilise. Qed.

End Stable.

#[global] Hint Resolve printf_stable TIMER_Delay_stable SPI1_Transmit_stable
  SPI1_SendBuffer_stable get_isSDHC_stable dprint_stable print_stable
  SD_SendCommand_stable SD_GetResponseR3orR7_stable print_buf_stable
  poll_loop_stable wait_data_token_stable wait_not_busy_stable
  write_command_stable write_blocks_stable : sd_stable.

(** ** Memory and traffic of whole calls *)

Section Frames.

Variable sd : card.

Lemma SPI1_ReadBuffer_traffic buf len : respects traffic_only (SPI1_ReadBuffer sd buf len).
Proof. intros s. exists [EReadBuffer len]. auto. Qed.

Lemma SPI1_ReadBuffer_mem (lo hi buf len : Z) :
  lo <= buf -> buf + len <= hi ->
  respects (mem_outside lo hi) (SPI1_ReadBuffer sd buf len).
Proof.
  intros Hlo Hhi s a Ha. cbn.
  destruct (Z.leb_spec buf a), (Z.ltb_spec a (buf + len)); cbn; try reflexivity; lia.
Qed.

Lemma read_blocks_traffic (fuel count : nat) :
  forall buf, respects traffic_only (read_blocks sd fuel count buf).
Proof.
  pose proof traffic_only_stable as HR.
  induction count as [|count IH]; intros buf; cbn [read_blocks]; stabilise.
  apply SPI1_ReadBuffer_traffic.
Qed.

Lemma read_blocks_mem (fuel count : nat) :
  forall buf lo hi,
    lo <= buf -> buf + 512 * Z.of_nat count <= hi ->
    respects (mem_outside lo hi) (read_blocks sd fuel count buf).
Proof.
  induction count as [|count IH]; intros buf lo hi Hlo Hhi;
    pose proof (mem_outside_stable lo hi) as HR; cbn [read_blocks]; stabilise.
  - apply SPI1_ReadBuffer_mem; lia.
  - apply IH; lia.
Qed.

Lemma SPI1_Init_mem lo hi : respects (mem_outside lo hi) SPI1_Init.
Proof. intros s. apply mem_outside_sent. Qed.

Lemma SPI1_Select_mem lo hi : respects (mem_outside lo hi) SPI1_Select.
Proof. intros s. apply mem_outside_sent. Qed.

Lemma SPI1_Deselect_mem lo hi : respects (mem_outside lo hi) SPI1_Deselect.
Proof. intros s. apply mem_outside_sent. Qed.

Hint Resolve SPI1_Init_mem SPI1_Select_mem SPI1_Deselect_mem : sd_stable.

Lemma SD_ReadSectors_mem (fuel : nat) (buf sector count : Z) :
  respects (mem_outside buf (buf + 512 * Z.of_nat (Z.to_nat count)))
           (SD_ReadSectors sd fuel buf sector count).
Proof.
  pose proof (mem_outside_stable buf (buf + 512 * Z.of_nat (Z.to_nat count))) as HR.
  unfold SD_ReadSectors. stabilise.
  apply read_blocks_mem; lia.
Qed.

Lemma SD_WriteSectors_mem (fuel : nat) (buf sector count : Z) :
  respects (mem_outside 0 0) (SD_WriteSectors sd fuel buf sector count).
Proof.
  pose proof (mem_outside_stable 0 0) as HR.
  unfold SD_WriteSectors. stabilise.
Qed.

Lemma SD_Init_mem : respects (mem_outside 0 0) (SD_Init sd).
Proof.
  pose proof (mem_outside_stable 0 0) as HR.
  unfold SD_Init, bring_up, read_capacity. stabilise.
  - apply (respects_for_range _ (stable_refl _ HR) (stable_trans _ HR)).
    intros i. stabilise.
Qed.

(** *** Select and deselect *)

Lemma closes_end {A : Type} (v : A) : closes (SPI1_Deselect ;; ret v).
Proof. intros s. cbn. exists []. auto. Qed.

Lemma closes_bind {A B : Type} (m : M A) (k : A -> M B) :
  respects traffic_only m -> (forall a, closes (k a)) -> closes (bind m k).
Proof.
  intros Hm Hk s. destruct (Hm s) as (e & E & T). unfold bind.
  destruct (m s) as [a s1|s1|s1]; cbn [final] in E.
  - specialize (Hk a s1).
    destruct (k a s1) as [b s2|s2|s2]; destruct Hk as (e' & E' & T');
      exists (e ++ e'); rewrite E', E, forallb_app, T, T', <- !app_assoc; auto.
  - now exists e.
  - now exists e.
Qed.

Lemma read_closes (fuel : nat) (buf address count : Z) :
  closes (resp <- SD_SendCommand sd SD_READ_MULTIPLE_BLOCK address ;;
          when (negb (resp =? 0x00))
            (dprint ("SD_READ_MULTIPLE_BLOCK error" ++ crlf) []) ;;
          read_blocks sd fuel (Z.to_nat count) buf ;;
          SD_SendCommand sd SD_STOP_TRANSMISSION 0 ;;
          wait_not_busy sd fuel ;;
          SPI1_Deselect ;;
          ret 0).
Proof.
  pose proof traffic_only_stable as HR.
  repeat first
    [ apply closes_end
    | apply closes_bind; [first [apply read_blocks_traffic | stabilise]|intros ?] ].
Qed.

Lemma write_closes (fuel : nat) (buf address count : Z) :
  closes (write_command sd fuel address ;;
          SPI1_Transmit sd 0xff ;;
          write_blocks sd (Z.to_nat count) buf ;;
          SPI1_Transmit sd 0xfd ;;
          SPI1_Transmit sd 0xff ;;
          wait_not_busy sd fuel ;;
          SPI1_Deselect ;;
          ret 0).
Proof.
  pose proof traffic_only_stable as HR.
  repeat first
    [ apply closes_end
    | apply closes_bind; [stabilise|intros ?] ].
Qed.

End Frames.

(** ** The command layer, continued *)

Lemma index_byte_sum (cmd : Z) : 0 <= cmd < 64 -> Z.lor 0x40 cmd = 64 + cmd.
Proof.
  intros H.
  assert (E : Z.land 64 cmd = 0).
  { apply Z.bits_inj'. intros n Hn.
    rewrite Z.land_spec, Z.bits_0. change 64 with (2 ^ 6).
    rewrite Z.pow2_bits_eqb by lia.
    destruct (Z.eqb_spec 6 n) as [<-|_]; [|reflexivity]. cbn [andb].
    destruct (Z.eq_dec cmd 0) as [->|NE]; [reflexivity|].
    apply Z.bits_above_log2; [lia|].
    apply Z.log2_lt_pow2; lia. }
  pose proof (Z.add_lor_land 64 cmd) as A. rewrite E in A. lia.
Qed.

(** X1. The index byte of a frame keeps the command index apart from the
    two fixed top bits: for every index below 64 and every 32-bit
    argument, the first byte [SD_SendCommand] transmits has bits 7..6
    equal to 01 and bits 5..0 equal to the index, and bytes 2 to 5 give
    back the argument, so the command can be read off the wire.  The
    index is not masked: an index from 64 to 127 goes out unchanged as
    the first byte. *)
Theorem X1_frame_decodes (sd : card) (cmd args : Z) (s : state) :
  0 <= cmd < 128 -> 0 <= args < 2 ^ 32 ->
  let bytes := tx_bytes (added (trace s) (trace (final (SD_SendCommand sd cmd args s)))) in
  frame_argument (firstn 6 bytes) = args /\
  (cmd < 64 ->
   Z.shiftr (nth 0 bytes 0) 6 = 1 /\ Z.land (nth 0 bytes 0) 0x3f = cmd) /\
  (64 <= cmd -> nth 0 bytes 0 = cmd).
Proof.
  intros Hc Ha bytes.
  assert (Eb : bytes = command_frame cmd args ++ [0xff; 0xff]).
  { unfold bytes. rewrite SD_SendCommand_eq. cbn [final trace logged sent].
    rewrite added_app. unfold command_events.
    rewrite tx_bytes_map. apply wire_bytes_frame; lia. }
  rewrite Eb. split; [|split].
  - change (firstn 6 (command_frame cmd args ++ [255; 255]))
      with (command_frame cmd args).
    now apply frame_argument_correct.
  - intros Hlt. cbn [command_frame app nth].
    rewrite index_byte_sum by lia. split.
    + rewrite Z.shiftr_div_pow2 by lia. change (2 ^ 6) with 64.
      symmetry. apply (Z.div_unique (64 + cmd) 64 1 cmd); lia.
    + change 63 with (Z.ones 6). rewrite Z.land_ones by lia. change (2 ^ 6) with 64.
      symmetry. apply (Z.mod_unique (64 + cmd) 64 1 cmd); lia.
  - intros Hge. cbn [command_frame app nth].
    replace cmd with (64 + (cmd - 64)) at 1 by lia.
    rewrite <- (index_byte_sum (cmd - 64)) by lia.
    rewrite Z.lor_assoc. change (Z.lor 64 64) with 64.
    rewrite index_byte_sum by lia. lia.
Qed.

(** CMD58 with argument 0x12345678. *)
Lemma X1_frame_decodes_witness :
  (0 <= 58 < 128 /\ 0 <= 0x12345678 < 2 ^ 32) /\
  let bytes :=
    tx_bytes (added (trace power_on)
                (trace (final (SD_SendCommand (card_const 1) 58 0x12345678 power_on)))) in
  frame_argument (firstn 6 bytes) = 0x12345678 /\
  (58 < 64 ->
   Z.shiftr (nth 0 bytes 0) 6 = 1 /\ Z.land (nth 0 bytes 0) 0x3f = 58) /\
  (64 <= 58 -> nth 0 bytes 0 = 58).
Proof.
  split; [lia|].
  apply (X1_frame_decodes (card_const 1) 58 0x12345678 power_on); lia.
Defined.

(** X2. [SD_GetResponseR3orR7] never fails and never looks at what it
    receives: for every card it returns 0 after exactly four filler
    bytes, and the buffer holds the four replies in the order they were
    received, each a byte.  It prints nothing and leaves the capacity
    flag and the memory alone.  Called after [SD_SendCommand], as
    [SD_Init] does, it gives the replies to the four bytes that follow
    the one the status was read on: a command with an extended response
    takes twelve bytes on the link. *)
Theorem X2_extended_response (sd : card) (cmd args : Z) (s : state) :
  (exists s',
     SD_GetResponseR3orR7 sd s
     = Returned (0, map (fun i => rx sd (trace s ++ repeat (ETx 0xff) i)) [1; 2; 3; 4]%nat)
                s' /\
     trace s' = trace s ++ repeat (ETx 0xff) 4 /\
     console s' = console s /\ isSDHC s' = isSDHC s /\ mem s' = mem s) /\
  Forall is_byte (map (fun i => rx sd (trace s ++ repeat (ETx 0xff) i)) [1; 2; 3; 4]%nat) /\
  (let sent_so_far := trace s ++ command_events cmd args in
   exists s',
     (status <- SD_SendCommand sd cmd args ;;
      payload <- SD_GetResponseR3orR7 sd ;;
      ret (status, snd payload)) s
     = Returned (rx sd sent_so_far,
                 map (fun i => rx sd (sent_so_far ++ repeat (ETx 0xff) i)) [1; 2; 3; 4]%nat)
                s' /\
     trace s' = sent_so_far ++ repeat (ETx 0xff) 4 /\
     List.length (added (trace s) (trace s')) = 12%nat).
Proof.
  assert (G : forall s0,
             SD_GetResponseR3orR7 sd s0
             = Returned (0, map (fun i => rx sd (trace s0 ++ repeat (ETx 0xff) i))
                                [1; 2; 3; 4]%nat)
                        (sent (repeat (ETx 0xff) 4) s0)).
  { intros s0. unfold SD_GetResponseR3orR7.
    do 4 (rewrite (bind_Returned _ _ _ _ _ (SPI1_Transmit_eq sd _ _)); cbv beta).
    rewrite !sent_sent. unfold ret. cbn [trace sent map repeat app].
    rewrite <- !app_assoc. reflexivity. }
  split; [|split].
  - eexists. split; [apply G|]. repeat split.
  - cbn [map]. repeat constructor; unfold rx, u8; apply Z.mod_pos_bound; lia.
  - intros sent_so_far. eexists.
    rewrite (bind_Returned _ _ _ _ _ (SD_SendCommand_eq sd _ _ _)). cbv beta.
    rewrite (bind_Returned _ _ _ _ _ (G _)). cbv beta.
    split; [reflexivity|]. cbn [trace sent logged snd]. split; [reflexivity|].
    rewrite <- app_assoc, added_app. reflexivity.
Qed.

(** ** Initialisation, continued *)

Lemma extends_sent (e : list event) (s : state) : extends s (sent e s).
Proof. split; [now exists e|]. exists []. cbn. now rewrite app_nil_r. Qed.

Lemma extends_stable : stable extends.
Proof.
  split; [|split; [|split; [|split]]].
  - apply extends_refl.
  - apply extends_trans.
  - intros e s _. apply extends_sent.
  - intros l s. apply (follows_logged l s).
  - intros v s. split; exists []; cbn; now rewrite app_nil_r.
Qed.

Section Opening.

Variable sd : card.

Lemma SPI1_Deselect_extends : respects extends SPI1_Deselect.
Proof. intros s. apply extends_sent. Qed.

Lemma read_capacity_extends : respects extends (read_capacity sd).
Proof.
  pose proof extends_stable as HR.
  unfold read_capacity. stabilise; apply SPI1_Deselect_extends.
Qed.

Lemma poll_loop_S (n : nat) (i : Z) :
  poll_loop sd (S n) i
  = (SD_SendCommand sd SD_APP_CMD 0 ;;
     resp <- SD_SendCommand sd SD_ACMD_SEND_OP_COND SD_ACMD41_HCS ;;
     TIMER_Delay 20 ;;
     if resp =? 0x00 then ret tt
     else
       when (i =? 9)
         (dprint ("Failed to initialize SD card" ++ crlf) [] ;; halt) ;;
       poll_loop sd n (i + 1)).
Proof. reflexivity. Qed.

(** The first polling attempt is always made. *)
Lemma SD_Init_first_poll (s : state) :
  exists rest,
    trace (final (SD_Init sd s)) = trace s ++ bringup_events ++ poll_events ++ rest.
Proof.
  pose proof extends_stable as HR.
  unfold SD_Init.
  destruct (runs_bind_returned (bring_up sd)
              (fun _ => poll_loop sd 10 0 ;; read_capacity sd) _ _ _ _ s
              (bring_up_runs sd (trace s) (mem s)) eq_refl eq_refl)
    as (s1 & -> & T1 & _).
  rewrite poll_loop_S, bind_assoc.
  rewrite (bind_Returned _ _ _ _ _ (SD_SendCommand_eq sd _ _ _)). cbv beta.
  rewrite bind_assoc.
  rewrite (bind_Returned _ _ _ _ _ (SD_SendCommand_eq sd _ _ _)). cbv beta.
  rewrite bind_assoc.
  match goal with
  | |- context [bind (TIMER_Delay ?ms) ?k ?s3] =>
      rewrite (bind_Returned (TIMER_Delay ms) k s3 tt (sent [EDelay ms] s3) eq_refl)
  end.
  match goal with
  | |- context [final (?m ?s4)] =>
      assert (H : respects extends m)
        by (stabilise; apply read_capacity_extends);
      destruct (H s4) as ((e & He) & _)
  end.
  exists e. rewrite He. cbn [trace sent logged]. rewrite T1.
  unfold poll_events, poll_command_events. rewrite <- !app_assoc. reflexivity.
Qed.

End Opening.

(** X3. No answer of the card during bring-up is fatal.  Whatever the
    card replies to CMD0, to CMD8 (status and echo) and to the first
    READ_OCR, a run of [SD_Init] goes through the same traffic: set-up
    and select, 20 filler bytes, CMD0 with its two response probes, CMD8
    with argument 0x1AA and four more response bytes, CMD58 with four
    more, and then the first APP_CMD and ACMD41 (argument 0x40000000)
    followed by a delay of 20 ms. *)
Theorem X3_bring_up_is_unconditional (sd : card) (s : state) :
  exists rest,
    trace (final (SD_Init sd s))
    = trace s ++ [EInit; ESelect] ++ repeat (ETx 0xff) 20
        ++ map ETx [0x40; 0; 0; 0; 0; 0x95; 0xff; 0xff]
        ++ map ETx [0x48; 0; 0; 1; 0xaa; 0x87; 0xff; 0xff] ++ repeat (ETx 0xff) 4
        ++ map ETx [0x7a; 0; 0; 0; 0; 0xff; 0xff; 0xff] ++ repeat (ETx 0xff) 4
        ++ map ETx [0x77; 0; 0; 0; 0; 0xff; 0xff; 0xff]
        ++ map ETx [0x69; 0x40; 0; 0; 0; 0xff; 0xff; 0xff]
        ++ [EDelay 20] ++ rest.
Proof.
  destruct (SD_Init_first_poll sd s) as (rest & E).
  exists rest. rewrite E.
  unfold bringup_events, poll_events, poll_command_events.
  rewrite <- !app_assoc. reflexivity.
Qed.

Section Outcome.

Variable sd : card.

Lemma first_ready_from_some (h : list event) (n : nat) :
  forall k j,
    first_ready_from sd h k n = Some j ->
    (k <= j < k + n)%nat /\
    (forall i, (k <= i < j)%nat -> poll_status sd h i <> 0) /\
    poll_status sd h j = 0.
Proof.
  induction n as [|n IH]; intros k j E; cbn [first_ready_from] in E; [discriminate|].
  destruct (Z.eqb_spec (poll_status sd h k) 0) as [Z|NZ].
  - injection E as <-. split; [lia|split; [|exact Z]]. intros i Hi. lia.
  - destruct (IH _ _ E) as (B & F & Z). split; [lia|split; [|exact Z]].
    intros i Hi. destruct (Nat.eq_dec i k) as [->|]; [exact NZ|apply F; lia].
Qed.

Lemma first_ready_from_none (h : list event) (n : nat) :
  forall k,
    first_ready_from sd h k n = None ->
    forall i, (k <= i < k + n)%nat -> poll_status sd h i <> 0.
Proof.
  induction n as [|n IH]; intros k E i Hi; cbn [first_ready_from] in E; [lia|].
  destruct (Z.eqb_spec (poll_status sd h k) 0) as [Z|NZ]; [discriminate|].
  destruct (Nat.eq_dec i k) as [->|]; [exact NZ|]. apply (IH (S k) E). lia.
Qed.

(** How a run of [SD_Init] ends, read off the first accepted poll. *)
Lemma SD_Init_ending (s : state) :
  ending_of (SD_Init sd s)
  = match first_ready sd (trace s) with Some _ => Ret tt | None => Halt end.
Proof.
  unfold first_ready. destruct (first_ready_from sd (trace s) 0 10) as [j|] eqn:E.
  - destruct (first_ready_from_some _ _ _ _ E) as (B & F & Z).
    destruct (SD_Init_ready sd j s) as (s' & -> & _); try easy; try lia.
    intros k Hk. apply F. lia.
  - destruct (SD_Init_hangs sd s) as (s' & -> & _); [|reflexivity].
    intros k Hk. apply (first_ready_from_none _ _ _ E). lia.
Qed.

Lemma bring_up_follows : respects follows (bring_up sd).
Proof.
  unfold bring_up. follow.
Qed.

(** A loop that hangs has printed the failure line last and has left
    the flag, the memory and the selection of the card as they were. *)
Lemma poll_loop_halted (n : nat) :
  forall i s s',
    poll_loop sd n i s = Halted s' ->
    exists l, console s' = console s ++ l ++ failure_log.
Proof.
  induction n as [|n IH]; intros i s s' E; [discriminate|].
  rewrite poll_loop_S in E.
  rewrite (bind_Returned _ _ _ _ _ (SD_SendCommand_eq sd _ _ _)) in E. cbv beta in E.
  rewrite (bind_Returned _ _ _ _ _ (SD_SendCommand_eq sd _ _ _)) in E. cbv beta in E.
  match type of E with
  | context [bind (TIMER_Delay ?ms) ?k ?s3] =>
      rewrite (bind_Returned (TIMER_Delay ms) k s3 tt (sent [EDelay ms] s3) eq_refl) in E
  end.
  cbv beta in E.
  match type of E with
  | (if ?c then _ else _) _ = _ => destruct c; [discriminate|]
  end.
  destruct (i =? 9).
  - unfold when, bind, dprint, printf, bind, halt in E. injection E as <-.
    cbn [console logged sent].
    match goal with
    | |- exists l, (((_ ++ ?a) ++ ?b) ++ _) ++ _ = _ => exists (a ++ b)
    end.
    rewrite <- !app_assoc. reflexivity.
  - rewrite (bind_Returned (when false _) _ _ tt _ eq_refl) in E.
    destruct (IH _ _ _ E) as (l & C). rewrite C. cbn [console logged sent].
    match goal with
    | |- exists l', ((_ ++ ?a) ++ ?b) ++ _ = _ => exists (a ++ b ++ l)
    end.
    rewrite <- !app_assoc. reflexivity.
Qed.

Lemma SD_Init_halted (s s' : state) :
  SD_Init sd s = Halted s' ->
  isSDHC s' = isSDHC s /\
  (exists l, console s' = console s ++ l ++ failure_log) /\
  trace s' = trace s ++ bringup_events ++ polls 10.
Proof.
  intros E.
  assert (Hend : first_ready sd (trace s) = None).
  { pose proof (SD_Init_ending s) as H. rewrite E in H. cbn [ending_of] in H.
    destruct (first_ready sd (trace s)); [discriminate|reflexivity]. }
  destruct (SD_Init_hangs sd s) as (s2 & E2 & T2).
  { intros k Hk. apply (first_ready_from_none _ _ _ Hend). lia. }
  rewrite E in E2. injection E2 as <-. split; [|split; [|exact T2]].
  - unfold SD_Init, bind in E.
    pose proof (bring_up_follows s) as (F1 & _).
    destruct (bring_up sd s) as [[] s1|s1|s1]; cbn [final] in F1.
    + pose proof (poll_loop_follows sd 10 0 s1) as (F2 & _).
      destruct (poll_loop sd 10 0 s1) as [[] s2|s2|s2]; cbn [final] in F2.
      * destruct (read_capacity_eq sd s2) as (s3 & E3 & _). congruence.
      * injection E as <-. congruence.
      * discriminate.
    + injection E as <-. exact F1.
    + discriminate.
  - unfold SD_Init, bind in E.
    pose proof (bring_up_follows s) as (_ & _ & (l1 & C1)).
    destruct (bring_up sd s) as [[] s1|s1|s1] eqn:B; cbn [final] in C1.
    + destruct (poll_loop sd 10 0 s1) as [[] s2|s2|s2] eqn:P.
      * destruct (read_capacity_eq sd s2) as (s3 & E3 & _). congruence.
      * injection E as <-. destruct (poll_loop_halted _ _ _ _ P) as (l & C).
        exists (l1 ++ l). rewrite C, C1, <- !app_assoc. reflexivity.
      * discriminate.
    + exfalso. destruct (bring_up_runs sd (trace s) (mem s) s eq_refl eq_refl) as (R & _).
      rewrite B in R. discriminate.
    + discriminate.
Qed.

End Outcome.

Lemma bringup_attempts : count_occ event_eq_dec bringup_events (ETx 0x69) = 0%nat.
Proof. vm_compute. reflexivity. Qed.

Lemma capacity_attempts : count_occ event_eq_dec capacity_events (ETx 0x69) = 0%nat.
Proof. vm_compute. reflexivity. Qed.

Lemma polls_attempts (n : nat) :
  count_occ event_eq_dec (polls n) (ETx 0x69) = n.
Proof.
  induction n as [|n IH]; [reflexivity|].
  rewrite polls_S, count_occ_app, IH. reflexivity.
Qed.

(** X4. [SD_Init] returns exactly when the card answers 0 to one of the
    first ten ACMD41 polls, and hangs exactly when it answers none of
    them with 0.  Which of the two happens is decided by the first
    accepted poll ([first_ready]): when attempt [j + 1] is the first
    one accepted, the run makes exactly [j + 1] attempts and goes on to
    the capacity read; when none is, it makes exactly ten and nothing
    after them.  The number of ACMD41 frames on the link (index byte
    0x69) is that number of attempts, so never more than ten: there is
    no eleventh attempt. *)
Theorem X4_init_returns_iff_ready (sd : card) (s : state) :
  (ending_of (SD_Init sd s) = Ret tt
   <-> exists k, (k < 10)%nat /\ poll_status sd (trace s) k = 0) /\
  (ending_of (SD_Init sd s) = Halt
   <-> forall k, (k < 10)%nat -> poll_status sd (trace s) k <> 0) /\
  ending_of (SD_Init sd s)
  = match first_ready sd (trace s) with Some _ => Ret tt | None => Halt end /\
  match first_ready sd (trace s) with
  | Some j =>
      (j < 10)%nat /\
      exists s',
        SD_Init sd s = Returned tt s' /\
        trace s' = trace s ++ bringup_events ++ polls (S j) ++ capacity_events
  | None =>
      exists s',
        SD_Init sd s = Halted s' /\
        trace s' = trace s ++ bringup_events ++ polls 10
  end /\
  count_occ event_eq_dec (added (trace s) (trace (final (SD_Init sd s)))) (ETx 0x69)
  = match first_ready sd (trace s) with Some j => S j | None => 10%nat end /\
  (count_occ event_eq_dec (added (trace s) (trace (final (SD_Init sd s)))) (ETx 0x69)
   <= 10)%nat.
Proof.
  pose proof (SD_Init_ending sd s) as E.
  assert (Hrun :
    match first_ready sd (trace s) with
    | Some j =>
        (j < 10)%nat /\
        exists s',
          SD_Init sd s = Returned tt s' /\
          trace s' = trace s ++ bringup_events ++ polls (S j) ++ capacity_events
    | None =>
        exists s',
          SD_Init sd s = Halted s' /\
          trace s' = trace s ++ bringup_events ++ polls 10
    end).
  { unfold first_ready.
    destruct (first_ready_from sd (trace s) 0 10) as [j|] eqn:F.
    - destruct (first_ready_from_some _ _ _ _ _ F) as (B & Hfail & Z).
      split; [lia|].
      destruct (SD_Init_ready sd j s) as (s' & E' & T' & _); try lia; try exact Z.
      + intros k Hk. apply Hfail. lia.
      + exists s'. split; assumption.
    - destruct (SD_Init_hangs sd s) as (s' & E' & T').
      + intros k Hk. apply (first_ready_from_none _ _ _ _ F). lia.
      + exists s'. split; assumption. }
  assert (Hcount :
    count_occ event_eq_dec (added (trace s) (trace (final (SD_Init sd s)))) (ETx 0x69)
    = match first_ready sd (trace s) with Some j => S j | None => 10%nat end).
  { destruct (first_ready sd (trace s)) as [j|].
    - destruct Hrun as (_ & s' & -> & T). cbn [final].
      rewrite T, added_app, !count_occ_app, polls_attempts, bringup_attempts,
        capacity_attempts. lia.
    - destruct Hrun as (s' & -> & T). cbn [final].
      rewrite T, added_app, !count_occ_app, polls_attempts, bringup_attempts. lia. }
  split; [|split; [|split; [exact E|split; [exact Hrun|split; [exact Hcount|]]]]].
  - rewrite E. unfold first_ready.
    destruct (first_ready_from sd (trace s) 0 10) as [j|] eqn:F.
    + destruct (first_ready_from_some _ _ _ _ _ F) as (B & _ & Z).
      split; [intros _; exists j; split; [lia|exact Z]|reflexivity].
    + split; [discriminate|]. intros (k & Hk & Z). exfalso.
      exact (first_ready_from_none _ _ _ _ F k ltac:(lia) Z).
  - rewrite E. unfold first_ready.
    destruct (first_ready_from sd (trace s) 0 10) as [j|] eqn:F.
    + destruct (first_ready_from_some _ _ _ _ _ F) as (B & _ & Z).
      split; [discriminate|]. intros H. exfalso. apply (H j); [lia|exact Z].
    + split; [|reflexivity]. intros _ k Hk.
      apply (first_ready_from_none _ _ _ _ F). lia.
  - rewrite Hcount. destruct (first_ready sd (trace s)) as [j|]; [|lia].
    destruct Hrun as (Hj & _). lia.
Qed.

(** X5. A run of [SD_Init] that hangs has made ten polling attempts and
    nothing after them, has printed the failure line last, and leaves
    the capacity flag and the memory as they were and the card
    selected: nothing but traffic follows the select. *)
Theorem X5_hang_leaves_card_selected (sd : card) (s s' : state) :
  SD_Init sd s = Halted s' ->
  isSDHC s' = isSDHC s /\
  (forall a, mem s' a = mem s a) /\
  (exists l, console s' = console s ++ l ++ failure_log) /\
  exists e,
    trace s' = trace s ++ [EInit; ESelect] ++ e /\
    forallb is_traffic e = true /\
    e = skipn 2 bringup_events ++ polls 10.
Proof.
  intros E. destruct (SD_Init_halted sd s s' E) as (F & C & T).
  split; [exact F|]. split; [|split; [exact C|]].
  - intros a. pose proof (SD_Init_mem sd s a) as H. rewrite E in H.
    apply H. lia.
  - eexists. split; [|split; [|reflexivity]].
    + rewrite T. unfold bringup_events. rewrite <- !app_assoc. reflexivity.
    + vm_compute. reflexivity.
Qed.

(** A card that answers 1 to everything. *)
Lemma X5_hang_leaves_card_selected_witness :
  exists s',
    SD_Init (card_const 1) power_on = Halted s' /\
    isSDHC s' = isSDHC power_on /\
    (forall a, mem s' a = mem power_on a) /\
    (exists l, console s' = console power_on ++ l ++ failure_log) /\
    exists e,
      trace s' = trace power_on ++ [EInit; ESelect] ++ e /\
      forallb is_traffic e = true /\
      e = skipn 2 bringup_events ++ polls 10.
Proof.
  destruct (SD_Init (card_const 1) power_on) as [[] s'|s'|s'] eqn:E;
    [vm_compute in E; discriminate| |vm_compute in E; discriminate].
  exists s'. split; [reflexivity|].
  exact (X5_hang_leaves_card_selected (card_const 1) power_on s' E).
Defined.



(** ** Block transfers, continued *)

(** X6. [SD_ReadSectors] stores into the caller's buffer and nowhere
    else: every address below [buf] or at or above [buf + 512 * count]
    holds after the call what it held before, whatever the card does and
    however far the transfer gets. *)
Theorem X6_read_stays_in_buffer (sd : card) (fuel : nat) (buf sector count : Z)
    (s : state) (a : Z) :
  a < buf \/ buf + 512 * count <= a ->
  mem (final (SD_ReadSectors sd fuel buf sector count s)) a = mem s a.
Proof.
  intros Ha. apply (SD_ReadSectors_mem sd fuel buf sector count s a).
  destruct count as [|c|c]; cbn [Z.to_nat Z.of_nat] in *;
    rewrite ?positive_nat_Z; lia.
Qed.

(** Two blocks read to address 0: the byte at address 1024 is not
    touched. *)
Lemma X6_read_stays_in_buffer_witness :
  (1024 < 0 \/ 0 + 512 * 2 <= 1024) /\
  mem (final (SD_ReadSectors (card_const 0xfe) 1 0 7 2 power_on)) 1024
  = mem power_on 1024.
Proof.
  split; [lia|].
  apply (X6_read_stays_in_buffer (card_const 0xfe) 1 0 7 2 power_on 1024). lia.
Defined.

(** X7. Only the read path stores into memory: [SD_WriteSectors] and
    [SD_Init] leave every byte of memory as it was, for every card and
    however the call ends. *)
Theorem X7_write_and_init_keep_memory (sd : card) (fuel : nat) (buf sector count : Z)
    (s : state) (a : Z) :
  mem (final (SD_WriteSectors sd fuel buf sector count s)) a = mem s a /\
  mem (final (SD_Init sd s)) a = mem s a.
Proof.
  split.
  - apply (SD_WriteSectors_mem sd fuel buf sector count s a). lia.
  - apply (SD_Init_mem sd s a). lia.
Qed.

(** Where select and deselect are in the traffic of a write. *)
Lemma write_select_and_deselect (sd : card) (fuel : nat) (buf sector count : Z)
    (s : state) :
  let o := SD_WriteSectors sd fuel buf sector count s in
  exists e,
    forallb is_traffic e = true /\
    trace (final o) = trace s ++ [ESelect] ++ e ++ closing o.
Proof.
  unfold SD_WriteSectors. cbv zeta.
  rewrite (bind_Returned SPI1_Select _ s tt (sent [ESelect] s) eq_refl). cbv beta.
  pose proof (write_closes sd fuel buf (u32 (sector * 512)) count
                (sent [ESelect] s)) as H.
  match type of H with
  | match ?o with _ => _ end =>
      destruct o as [r s'|s'|s']; destruct H as (e & E & T);
        exists e; (split; [exact T|]); cbn [final closing];
        rewrite E; cbn [trace sent]; rewrite <- ?app_assoc, ?app_nil_r; reflexivity
  end.
Qed.

(** X8. A transfer selects the card once, first, and deselects it once,
    last, and only if it returns: between the select and the end there
    is nothing but bytes, block transfers and delays.  A transfer that
    blocks in one of its polling loops leaves the card selected. *)
Theorem X8_select_and_deselect (sd : card) (fuel : nat) (buf sector count : Z)
    (s : state) :
  (let o := SD_ReadSectors sd fuel buf sector count s in
   exists e,
     forallb is_traffic e = true /\
     trace (final o) = trace s ++ [ESelect] ++ e ++ closing o) /\
  (let o := SD_WriteSectors sd fuel buf sector count s in
   exists e,
     forallb is_traffic e = true /\
     trace (final o) = trace s ++ [ESelect] ++ e ++ closing o).
Proof.
  split.
  - unfold SD_ReadSectors.
    rewrite (bind_Returned get_isSDHC _ s (isSDHC s) s eq_refl). cbv beta zeta.
    rewrite (bind_Returned SPI1_Select _ s tt (sent [ESelect] s) eq_refl). cbv beta.
    pose proof (read_closes sd fuel buf (read_address s sector) count
                  (sent [ESelect] s)) as H.
    unfold read_address in H.
    match type of H with
    | match ?o with _ => _ end =>
        destruct o as [r s'|s'|s']; destruct H as (e & E & T);
          exists e; (split; [exact T|]); cbn [final closing];
          rewrite E; cbn [trace sent]; rewrite <- ?app_assoc, ?app_nil_r; reflexivity
    end.
  - apply write_select_and_deselect.
Qed.

Section Addresses.

Variable sd : card.

Lemma read_first_argument (fuel : nat) (buf sector count : Z) (s : state) :
  0 <= sector < 2 ^ 32 ->
  first_argument s (final (SD_ReadSectors sd fuel buf sector count s))
  = read_address s sector.
Proof.
  intros Hs.
  destruct (SD_ReadSectors_begins sd fuel buf sector count s) as (rest & l & T & _).
  unfold first_argument. rewrite T, added_app.
  rewrite (first_frame_of_command _ _ [ESelect])
    by first [reflexivity | now apply read_address_range
             | cbv [SD_READ_MULTIPLE_BLOCK]; lia].
  apply frame_argument_correct. now apply read_address_range.
Qed.

Lemma write_first_argument (fuel : nat) (buf sector count : Z) (s : state) :
  first_argument s (final (SD_WriteSectors sd (S fuel) buf sector count s))
  = write_address sector.
Proof.
  destruct (SD_WriteSectors_begins sd fuel buf sector count s) as (rest & l & T & _).
  unfold first_argument. rewrite T, added_app. fold (write_address sector).
  rewrite (first_frame_of_command _ _ [ESelect])
    by first [reflexivity | apply write_address_range
             | cbv [SD_WRITE_MULTIPLE_BLOCK]; lia].
  apply frame_argument_correct. apply write_address_range.
Qed.

End Addresses.

Lemma scaled_address_fixpoint (sector : Z) :
  0 <= sector < 2 ^ 32 -> (sector * 512) mod 2 ^ 32 = sector -> sector = 0.
Proof.
  intros Hs E.
  assert (D : (2 ^ 32 | 511 * sector)).
  { exists (sector * 512 / 2 ^ 32).
    pose proof (Z.div_mod (sector * 512) (2 ^ 32) ltac:(lia)) as H.
    rewrite E in H. lia. }
  apply Z.gauss in D; [|reflexivity].
  destruct D as (q & Hq). change (2 ^ 32) with 4294967296 in *. nia.
Qed.

(** X9. The two paths address the card differently.  A read and a
    write of the same sector put the same address in their commands
    exactly when the capacity flag is clear or the sector is 0: with
    the flag set, every sector but the first is written at an address
    other than the one it is read at. *)
Theorem X9_read_write_addresses (sd : card) (fuel fuel' : nat)
    (buf buf' sector count count' : Z) (s : state) :
  0 <= sector < 2 ^ 32 ->
  (first_argument s (final (SD_ReadSectors sd fuel buf sector count s))
   = first_argument s (final (SD_WriteSectors sd (S fuel') buf' sector count' s))
   <-> isSDHC s = 0 \/ sector = 0).
Proof.
  intros Hs. rewrite read_first_argument, write_first_argument by assumption.
  unfold read_address, write_address, u32.
  destruct (Z.eqb_spec (isSDHC s) 0) as [F|F].
  - split; [now left|reflexivity].
  - split.
    + intros E. right. apply scaled_address_fixpoint; [assumption|now symmetry].
    + intros [C| ->]; [contradiction|reflexivity].
Qed.

(** Sector 1 on a high-capacity card: read at block 1, written at byte
    address 512, which that card takes for block 512. *)
Lemma X9_read_write_addresses_witness :
  0 <= 1 < 2 ^ 32 /\
  first_argument sdhc_ready (final (SD_ReadSectors (card_const 0xfe) 1 0 1 1 sdhc_ready))
  <> first_argument sdhc_ready
       (final (SD_WriteSectors (card_zero_at 9 1) 1 0 1 1 sdhc_ready)).
Proof.
  split; [lia|]. intros E.
  apply (X9_read_write_addresses (card_const 0xfe) 1 0 0 0 1 1 1 sdhc_ready
           ltac:(lia)) in E.
  destruct E as [E|E]; discriminate E.
Defined.

(** ** The read path, block by block *)

Lemma blocks_events_cons (d : nat) (ds : list nat) :
  blocks_events (d :: ds) = block_events d ++ blocks_events ds.
Proof. reflexivity. Qed.

Lemma filler_inj (h : list event) (m n : nat) : h ++ filler m = h ++ filler n -> m = n.
Proof.
  intros E. apply app_inv_head in E. apply (f_equal (@List.length event)) in E.
  unfold filler in E. now rewrite !repeat_length in E.
Qed.

Section ReadPath.

Variable sd : card.

(** The loop over the blocks, when every data token comes within the
    fuel: the traffic, and where each block ends up in memory. *)
Lemma read_blocks_spec (fuel : nat) (ds : list nat) :
  forall (buf : Z) (s : state),
    tokens_after sd (trace s) ds = true ->
    forallb (fun d => Nat.ltb d fuel) ds = true ->
    exists s',
      read_blocks sd fuel (List.length ds) buf s = Returned tt s' /\
      trace s' = trace s ++ blocks_events ds /\
      (forall a, a < buf \/ buf + 512 * Z.of_nat (List.length ds) <= a ->
                 mem s' a = mem s a) /\
      (forall i d k,
         nth_error ds i = Some d -> 0 <= k < 512 ->
         mem s' (buf + 512 * Z.of_nat i + k)
         = u8 (block sd (trace s ++ blocks_events (firstn i ds)
                           ++ filler (S d) ++ [EReadBuffer 512]) k)).
Proof.
  induction ds as [|d ds IH]; intros buf s Htok Hfuel.
  - exists s. cbn [read_blocks List.length]. split; [reflexivity|].
    split; [now rewrite app_nil_r|]. split; [reflexivity|].
    intros i d k Hn. destruct i; discriminate Hn.
  - cbn [tokens_after] in Htok. apply andb_true_iff in Htok as [Hw Htok].
    cbn [forallb] in Hfuel. apply andb_true_iff in Hfuel as [Hd Hfuel].
    apply Nat.ltb_lt in Hd.
    cbn [read_blocks List.length].
    destruct (runs_bind_returned (wait_data_token sd fuel)
                (fun _ => SPI1_ReadBuffer sd buf 512 ;; SPI1_Transmit sd 0xff ;;
                          SPI1_Transmit sd 0xff ;;
                          read_blocks sd fuel (List.length ds) (buf + 512))
                _ _ _ _ s
                (wait_data_token_found sd d fuel (trace s) (mem s) Hd Hw)
                eq_refl eq_refl) as (s1 & -> & T1 & M1).
    rewrite (bind_Returned (SPI1_ReadBuffer sd buf 512) _ s1 tt _ eq_refl).
    rewrite (bind_Returned _ _ _ _ _ (SPI1_Transmit_eq sd _ _)).
    rewrite (bind_Returned _ _ _ _ _ (SPI1_Transmit_eq sd _ _)).
    match goal with
    | |- context [read_blocks sd fuel _ _ ?s4] =>
        assert (T4 : trace s4 = trace s ++ block_events d)
          by (cbn [trace sent set_mem]; rewrite T1; unfold block_events;
              rewrite <- !app_assoc; reflexivity);
        assert (M4 : forall a,
                   mem s4 a
                   = if (buf <=? a) && (a <? buf + 512)
                     then u8 (block sd (trace s ++ filler (S d) ++ [EReadBuffer 512])
                                (a - buf))
                     else mem s a)
          by (intros a; cbn [mem sent set_mem trace]; rewrite T1, M1, <- app_assoc;
              reflexivity);
        destruct (IH (buf + 512) s4) as (s' & E & T & Mout & Mblk);
          [rewrite T4; exact Htok|exact Hfuel|]
    end.
    exists s'. split; [exact E|]. split; [|split].
    + rewrite T, T4, blocks_events_cons, <- app_assoc. reflexivity.
    + intros a Ha. rewrite Mout by lia. rewrite M4.
      destruct (Z.leb_spec buf a), (Z.ltb_spec a (buf + 512)); cbn [andb];
        try reflexivity; lia.
    + intros i d' k Hn Hk. destruct i as [|i].
      * injection Hn as <-. rewrite Mout by lia. rewrite M4.
        destruct (Z.leb_spec buf (buf + 512 * Z.of_nat 0 + k)),
                 (Z.ltb_spec (buf + 512 * Z.of_nat 0 + k) (buf + 512));
          cbn [andb]; try lia.
        cbn [firstn blocks_events map List.concat app]. do 2 f_equal. lia.
      * cbn [nth_error] in Hn.
        replace (buf + 512 * Z.of_nat (S i) + k)
          with (buf + 512 + 512 * Z.of_nat i + k) by lia.
        rewrite (Mblk i d' k Hn Hk), T4. cbn [firstn].
        rewrite blocks_events_cons, <- !app_assoc. reflexivity.
Qed.

(** The end of a read: STOP_TRANSMISSION and the busy-wait. *)
Lemma read_finish (fuel : nat) (s : state) :
  let o := (SD_SendCommand sd SD_STOP_TRANSMISSION 0 ;;
            wait_not_busy sd fuel ;; SPI1_Deselect ;; ret 0) s in
  exists k,
    trace (final o)
    = trace s ++ command_events SD_STOP_TRANSMISSION 0 ++ filler k ++ closing o /\
    mem (final o) = mem s /\
    (forall busy,
       (busy < fuel)%nat ->
       waits sd is_ready (trace s ++ command_events SD_STOP_TRANSMISSION 0) busy = true ->
       k = S busy /\ exists s', o = Returned 0 s').
Proof.
  intros o. unfold o.
  rewrite (bind_Returned _ _ _ _ _ (SD_SendCommand_eq sd _ _ _)).
  match goal with
  | |- context [bind (wait_not_busy sd fuel) ?k ?s1] =>
      set (s5 := s1);
      assert (T5 : trace s5 = trace s ++ command_events SD_STOP_TRANSMISSION 0)
        by reflexivity;
      assert (M5 : mem s5 = mem s) by reflexivity;
      destruct (wait_not_busy_runs sd fuel (trace s5) (mem s5)) as [n [H|H]]
  end.
  - destruct (runs_bind_returned (wait_not_busy sd fuel)
                (fun _ => SPI1_Deselect ;; ret 0) _ _ _ _ s5 H eq_refl eq_refl)
      as (s6 & -> & T6 & M6).
    exists n. cbn [final closing bind SPI1_Deselect ret trace mem sent].
    unfold bind, SPI1_Deselect, ret. cbn [final closing trace mem sent].
    split; [rewrite T6, T5, <- !app_assoc; reflexivity|]. split; [congruence|].
    intros busy Hb Hw.
    pose proof (wait_not_busy_found sd busy fuel (trace s5) (mem s5) Hb) as F.
    rewrite T5 in F at 2. specialize (F Hw).
    destruct (F s5 eq_refl eq_refl) as (_ & TF & _).
    destruct (H s5 eq_refl eq_refl) as (_ & TH & _).
    rewrite TF in TH. split; [symmetry; exact (filler_inj _ _ _ TH)|].
    eexists. reflexivity.
  - destruct (runs_out_of_fuel_bind (wait_not_busy sd fuel)
                (fun _ => SPI1_Deselect ;; ret 0) _ _ _ s5 H eq_refl eq_refl)
      as (s6 & -> & T6 & M6).
    exists n. cbn [final closing].
    split; [rewrite T6, T5, app_nil_r, <- !app_assoc; reflexivity|].
    split; [congruence|].
    intros busy Hb Hw. exfalso.
    pose proof (wait_not_busy_found sd busy fuel (trace s5) (mem s5) Hb) as F.
    rewrite T5 in F at 2. specialize (F Hw).
    destruct (F s5 eq_refl eq_refl) as (EF & _).
    destruct (H s5 eq_refl eq_refl) as (EH & _). congruence.
Qed.

End ReadPath.

(** X10. A read of as many blocks as the card sends data tokens for.
    If the data token of block [i] comes after [d_i] other bytes and the
    card is busy for [busy] bytes after STOP_TRANSMISSION, all within
    the fuel, [SD_ReadSectors] returns 0 after this traffic: select,
    READ_MULTIPLE_BLOCK, per block [d_i + 1] filler bytes, the 512-byte
    transfer and two bytes for the CRC, then STOP_TRANSMISSION,
    [busy + 1] filler bytes and deselect.  Byte [k] of block [i] is
    stored at [buf + 512 * i + k]. *)
Theorem X10_read_delivers_blocks (sd : card) (fuel : nat) (buf sector : Z)
    (ds : list nat) (busy : nat) (s : state) :
  let address := read_address s sector in
  let h := trace s ++ [ESelect] ++ command_events SD_READ_MULTIPLE_BLOCK address in
  tokens_after sd h ds = true ->
  forallb (fun d => Nat.ltb d fuel) ds = true ->
  waits sd is_ready (h ++ blocks_events ds ++ command_events SD_STOP_TRANSMISSION 0) busy
  = true ->
  (busy < fuel)%nat ->
  exists s',
    SD_ReadSectors sd fuel buf sector (Z.of_nat (List.length ds)) s = Returned 0 s' /\
    trace s' = h ++ blocks_events ds ++ command_events SD_STOP_TRANSMISSION 0
                 ++ repeat (ETx 0xff) (S busy) ++ [EDeselect] /\
    (forall i d k,
       nth_error ds i = Some d -> 0 <= k < 512 ->
       mem s' (buf + 512 * Z.of_nat i + k)
       = u8 (block sd (h ++ blocks_events (firstn i ds)
                         ++ repeat (ETx 0xff) (S d) ++ [EReadBuffer 512]) k)).
Proof.
  intros address h Htok Hfuel Hbusy Hb. unfold SD_ReadSectors.
  rewrite (bind_Returned get_isSDHC _ s (isSDHC s) s eq_refl). cbv beta zeta.
  fold (read_address s sector). fold address.
  rewrite (bind_Returned SPI1_Select _ s tt (sent [ESelect] s) eq_refl).
  rewrite (bind_Returned _ _ _ _ _ (SD_SendCommand_eq sd _ _ _)).
  rewrite (bind_Returned _ _ _ _ _ (when_dprint_eq _ _ _ _)).
  rewrite Nat2Z.id.
  match goal with
  | |- context [bind (read_blocks sd fuel _ buf) ?k ?s3] =>
      assert (T3 : trace s3 = h)
        by (cbn [trace sent logged]; unfold h; now rewrite <- app_assoc);
      destruct (read_blocks_spec sd fuel ds buf s3) as (s4 & E4 & T4 & _ & Mblk);
        [rewrite T3; exact Htok|exact Hfuel|];
      rewrite (bind_Returned _ k s3 tt s4 E4)
  end.
  destruct (read_finish sd fuel s4) as (k & T & M & W). cbv zeta in T, M, W.
  destruct (W busy Hb) as (-> & s' & Eo).
  { rewrite T4, T3, <- app_assoc. exact Hbusy. }
  rewrite Eo in T, M |- *. cbn [final closing] in T, M.
  exists s'. split; [reflexivity|]. split.
  - rewrite T, T4, T3, <- !app_assoc. reflexivity.
  - intros i d j Hn Hj. rewrite M, (Mblk i d j Hn Hj), T3. reflexivity.
Qed.

(** Two blocks from [card_two_blocks]. *)
Lemma X10_read_delivers_blocks_witness :
  let h := trace power_on ++ [ESelect]
             ++ command_events SD_READ_MULTIPLE_BLOCK (read_address power_on 7) in
  exists s',
    SD_ReadSectors card_two_blocks 3 0 7 (Z.of_nat (List.length [2; 0]%nat)) power_on
    = Returned 0 s' /\
    trace s' = h ++ blocks_events [2; 0]%nat ++ command_events SD_STOP_TRANSMISSION 0
                 ++ repeat (ETx 0xff) 2 ++ [EDeselect] /\
    (forall i d k,
       nth_error [2; 0]%nat i = Some d -> 0 <= k < 512 ->
       mem s' (0 + 512 * Z.of_nat i + k)
       = u8 (block card_two_blocks
               (h ++ blocks_events (firstn i [2; 0]%nat)
                  ++ repeat (ETx 0xff) (S d) ++ [EReadBuffer 512]) k)).
Proof.
  apply (X10_read_delivers_blocks card_two_blocks 3 0 7 [2; 0]%nat 1 power_on).
  - vm_compute. reflexivity.
  - reflexivity.
  - vm_compute. reflexivity.
  - lia.
Defined.

(** X11. The wait for a data token has no time-out.  If the card sends
    no data token in reply to the first [fuel] filler bytes after
    READ_MULTIPLE_BLOCK, a read of at least one block is still waiting
    after them: it has not returned, has sent nothing but those filler
    bytes after the command, and has stored nothing. *)
Theorem X11_read_waits_for_token (sd : card) (fuel : nat) (buf sector count : Z)
    (s : state) :
  let address := read_address s sector in
  let h := trace s ++ [ESelect] ++ command_events SD_READ_MULTIPLE_BLOCK address in
  0 < count ->
  starves sd is_token h fuel = true ->
  let o := SD_ReadSectors sd fuel buf sector count s in
  ending_of o = Fuel /\
  trace (final o) = h ++ repeat (ETx 0xff) fuel /\
  mem (final o) = mem s.
Proof.
  intros address h Hc Hs o. unfold o, SD_ReadSectors.
  rewrite (bind_Returned get_isSDHC _ s (isSDHC s) s eq_refl). cbv beta zeta.
  fold (read_address s sector). fold address.
  rewrite (bind_Returned SPI1_Select _ s tt (sent [ESelect] s) eq_refl).
  rewrite (bind_Returned _ _ _ _ _ (SD_SendCommand_eq sd _ _ _)).
  rewrite (bind_Returned _ _ _ _ _ (when_dprint_eq _ _ _ _)).
  destruct (Z.to_nat count) as [|n] eqn:En; [lia|]. cbn [read_blocks].
  rewrite !bind_assoc.
  match goal with
  | |- context [bind (wait_data_token sd fuel) ?k ?s3] =>
      assert (T3 : trace s3 = h)
        by (cbn [trace sent logged]; unfold h; now rewrite <- app_assoc);
      pose proof (wait_data_token_starved sd fuel (trace s3) (mem s3)) as H;
      rewrite T3 in H at 1; specialize (H Hs);
      destruct (runs_out_of_fuel_bind (wait_data_token sd fuel) k _ _ _ s3 H
                  eq_refl eq_refl) as (s4 & -> & T4 & M4)
  end.
  cbn [ending_of final]. split; [reflexivity|]. split.
  - rewrite T4, T3. reflexivity.
  - rewrite M4. reflexivity.
Qed.

(** A card that answers 0xFF to everything: no token in five bytes. *)
Lemma X11_read_waits_for_token_witness :
  let h := trace power_on ++ [ESelect]
             ++ command_events SD_READ_MULTIPLE_BLOCK (read_address power_on 7) in
  let o := SD_ReadSectors (card_const 0xff) 5 0 7 1 power_on in
  ending_of o = Fuel /\
  trace (final o) = h ++ repeat (ETx 0xff) 5 /\
  mem (final o) = mem power_on.
Proof.
  apply (X11_read_waits_for_token (card_const 0xff) 5 0 7 1 power_on).
  - lia.
  - vm_compute. reflexivity.
Defined.

(** X12. A read of no blocks still opens and closes a multiple-block
    read: select, READ_MULTIPLE_BLOCK, at once STOP_TRANSMISSION, the
    busy-wait, and deselect if the wait ends.  Nothing is stored. *)
Theorem X12_read_of_no_blocks (sd : card) (fuel : nat) (buf sector : Z) (s : state) :
  let o := SD_ReadSectors sd fuel buf sector 0 s in
  exists k,
    trace (final o)
    = trace s ++ [ESelect]
        ++ command_events SD_READ_MULTIPLE_BLOCK (read_address s sector)
        ++ command_events SD_STOP_TRANSMISSION 0
        ++ repeat (ETx 0xff) k ++ closing o /\
    mem (final o) = mem s.
Proof.
  intros o. unfold o, SD_ReadSectors.
  rewrite (bind_Returned get_isSDHC _ s (isSDHC s) s eq_refl). cbv beta zeta.
  fold (read_address s sector).
  rewrite (bind_Returned SPI1_Select _ s tt (sent [ESelect] s) eq_refl).
  rewrite (bind_Returned _ _ _ _ _ (SD_SendCommand_eq sd _ _ _)).
  rewrite (bind_Returned _ _ _ _ _ (when_dprint_eq _ _ _ _)).
  change (Z.to_nat 0) with 0%nat. cbn [read_blocks].
  match goal with
  | |- context [bind (ret tt) ?k ?s3] =>
      rewrite (bind_Returned (ret tt) k s3 tt s3 eq_refl);
      destruct (read_finish sd fuel s3) as (n & T & M & _)
  end.
  cbv zeta in T, M. exists n. split.
  - rewrite T. cbn [trace sent logged]. rewrite <- !app_assoc. reflexivity.
  - rewrite M. reflexivity.
Qed.

(** ** The write path, block by block *)

Lemma sent_data_app (h1 h2 : list event) :
  sent_data (h1 ++ h2) = sent_data h1 ++ sent_data h2.
Proof.
  induction h1 as [|e h1 IH]; [reflexivity|].
  destruct e; cbn [app sent_data]; rewrite ?IH, ?app_assoc; reflexivity.
Qed.

Lemma sent_data_bytes (l : list Z) : sent_data (map ETx l) = [].
Proof. induction l as [|b l IH]; [reflexivity|exact IH]. Qed.

Lemma sent_data_filler (n : nat) : sent_data (filler n) = [].
Proof. induction n as [|n IH]; [reflexivity|exact IH]. Qed.

Lemma sent_data_attempts (n : nat) (address : Z) :
  sent_data (write_attempts n address) = [].
Proof.
  induction n as [|n IH]; [reflexivity|].
  rewrite write_attempts_S, sent_data_app, IH. unfold write_attempt, command_events.
  rewrite sent_data_app, sent_data_bytes. reflexivity.
Qed.

Lemma map_seq_shift {A : Type} (n : nat) :
  forall (f : nat -> A) a, map f (seq a n) = map (fun k => f (a + k)%nat) (seq 0 n).
Proof.
  induction n as [|n IH]; intros f a; [reflexivity|].
  cbn [seq map]. rewrite Nat.add_0_r. f_equal.
  rewrite (IH f (S a)), (IH (fun k => f (a + k)%nat) 1%nat).
  apply map_ext. intros k. f_equal. lia.
Qed.

Lemma load_app (m : Z -> Z) (buf : Z) (a b : nat) :
  load m buf (a + b) = load m buf a ++ load m (buf + Z.of_nat a) b.
Proof.
  unfold load. rewrite seq_app, map_app. f_equal.
  cbn [Nat.add]. rewrite map_seq_shift. apply map_ext. intros k.
  f_equal. lia.
Qed.

Lemma sent_data_payload (mu : Z -> Z) (count : nat) :
  forall buf, sent_data (payload_events mu count buf) = load mu buf (512 * count).
Proof.
  induction count as [|count IH]; intros buf.
  - rewrite Nat.mul_0_r. reflexivity.
  - rewrite Nat.mul_succ_r, Nat.add_comm, load_app. cbn [payload_events].
    change ([ETx 252; ESendBuffer (load mu buf 512); ETx 255; ETx 255]
              ++ payload_events mu count (buf + 512))
      with (ETx 252 :: ESendBuffer (load mu buf 512) :: ETx 255 :: ETx 255
              :: payload_events mu count (buf + 512)).
    cbn [sent_data]. rewrite IH. reflexivity.
Qed.

Section WritePath.

Variable sd : card.

(** X13. A write the card accepts.  If the card refuses the command
    [j] times and accepts attempt [j + 1], and is then busy for [busy]
    bytes after the stop token, all within the fuel, [SD_WriteSectors]
    returns 0 after this traffic: select, the attempts, one filler byte,
    per block the token 0xFC, the 512-byte transfer and two bytes for
    the CRC, then the stop token 0xFD, one filler byte, [busy + 1]
    filler bytes and deselect.  The payload handed to the link is the
    contents of the buffer, [512 * count] bytes from [buf], in order. *)
Theorem X13_write_sends_buffer (fuel : nat) (buf sector count : Z)
    (j busy : nat) (s : state) :
  let address := write_address sector in
  let h := trace s ++ [ESelect]
             ++ write_events (mem s) (S j) address buf (Z.to_nat count) in
  (j < fuel)%nat ->
  (forall k, (k < j)%nat -> write_status sd (trace s) address k <> 0) ->
  write_status sd (trace s) address j = 0 ->
  waits sd is_ready h busy = true ->
  (busy < fuel)%nat ->
  exists s',
    SD_WriteSectors sd fuel buf sector count s = Returned 0 s' /\
    trace s' = h ++ repeat (ETx 0xff) (S busy) ++ [EDeselect] /\
    sent_data (trace s')
    = sent_data (trace s) ++ load (mem s) buf (512 * Z.to_nat count).
Proof.
  intros address h Hj Hfail Hok Hbusy Hb.
  assert (Hcmd : runs (write_command sd fuel address) (trace s ++ [ESelect]) (mem s)
                      (Ret tt) (write_attempts (S j) address)).
  { apply write_command_success; [exact Hj| |].
    - intros k Hk. rewrite <- app_assoc. apply Hfail. exact Hk.
    - rewrite <- app_assoc. exact Hok. }
  assert (Hrun : runs (SD_WriteSectors sd fuel buf sector count) (trace s) (mem s) (Ret 0)
                      ([ESelect] ++ write_events (mem s) (S j) address buf (Z.to_nat count)
                         ++ filler (S busy) ++ [EDeselect])).
  { eapply runs_events_eq.
    - unfold SD_WriteSectors. fold (write_address sector). fold address.
      run_step. eapply runs_bind; [exact Hcmd|]. run_step.
      eapply runs_bind; [apply write_blocks_runs|]. do 2 run_step.
      eapply runs_bind;
        [eapply runs_history_eq;
         [exact (wait_not_busy_found sd busy fuel h (mem s) Hb Hbusy)
         |unfold h, write_events; rewrite <- !app_assoc; reflexivity]|].
      run_step. apply runs_ret.
    - unfold write_events. rewrite <- !app_assoc. reflexivity. }
  destruct (runs_returned _ _ _ _ _ s Hrun eq_refl eq_refl) as (s' & E & T & _).
  exists s'. split; [exact E|].
  assert (T' : trace s' = h ++ repeat (ETx 0xff) (S busy) ++ [EDeselect])
    by (rewrite T; unfold h; rewrite <- !app_assoc; reflexivity).
  split; [exact T'|].
  rewrite T'. unfold h, write_events.
  rewrite !sent_data_app, sent_data_attempts, sent_data_payload.
  fold (filler (S busy)). rewrite sent_data_filler. cbn [sent_data app].
  rewrite !app_nil_r. reflexivity.
Qed.

(** X14. The busy-wait after a write has no time-out either.  If the
    card accepts the command at attempt [j + 1] and then answers 0 to
    the first [fuel] filler bytes after the stop token, the call is
    still waiting after them: it has not returned and has not
    deselected the card. *)
Theorem X14_write_waits_while_busy (fuel : nat) (buf sector count : Z)
    (j : nat) (s : state) :
  let address := write_address sector in
  let h := trace s ++ [ESelect]
             ++ write_events (mem s) (S j) address buf (Z.to_nat count) in
  (j < fuel)%nat ->
  (forall k, (k < j)%nat -> write_status sd (trace s) address k <> 0) ->
  write_status sd (trace s) address j = 0 ->
  starves sd is_ready h fuel = true ->
  let o := SD_WriteSectors sd fuel buf sector count s in
  ending_of o = Fuel /\
  trace (final o) = h ++ repeat (ETx 0xff) fuel /\
  existsb (fun e => negb (is_traffic e)) (added (trace s ++ [ESelect]) (trace (final o)))
  = false.
Proof.
  intros address h Hj Hfail Hok Hbusy o.
  assert (Hcmd : runs (write_command sd fuel address) (trace s ++ [ESelect]) (mem s)
                      (Ret tt) (write_attempts (S j) address)).
  { apply write_command_success; [exact Hj| |].
    - intros k Hk. rewrite <- app_assoc. apply Hfail. exact Hk.
    - rewrite <- app_assoc. exact Hok. }
  assert (Hrun : runs (SD_WriteSectors sd fuel buf sector count) (trace s) (mem s) Fuel
                      ([ESelect] ++ write_events (mem s) (S j) address buf (Z.to_nat count)
                         ++ filler fuel)).
  { eapply runs_events_eq.
    - unfold SD_WriteSectors. fold (write_address sector). fold address.
      run_step. eapply runs_bind; [exact Hcmd|]. run_step.
      eapply runs_bind; [apply write_blocks_runs|]. do 2 run_step.
      apply runs_bind_fuel.
      eapply runs_history_eq;
        [exact (wait_not_busy_starved sd fuel h (mem s) Hbusy)
        |unfold h, write_events; rewrite <- !app_assoc; reflexivity].
    - unfold write_events. rewrite <- !app_assoc. reflexivity. }
  destruct (Hrun s eq_refl eq_refl) as (E & T & _). fold o in E, T.
  split; [exact E|].
  assert (T' : trace (final o) = h ++ repeat (ETx 0xff) fuel)
    by (rewrite T; unfold h; rewrite <- !app_assoc; reflexivity).
  split; [exact T'|].
  pose proof (write_select_and_deselect sd fuel buf sector count s) as (e & Tr & Tc).
  fold o in Tc. rewrite Tc, app_assoc, added_app.
  assert (Ec : closing o = []) by (destruct o; [discriminate E|reflexivity|reflexivity]).
  rewrite Ec, app_nil_r.
  clear - Tr. induction e as [|x e IH]; [reflexivity|].
  cbn [forallb existsb] in *. apply andb_true_iff in Tr as [Hx Tr].
  rewrite Hx, IH by exact Tr. reflexivity.
Qed.

End WritePath.

(** Two refusals, then a write of one block of zeroes. *)
Lemma X13_write_sends_buffer_witness :
  let h := trace sdhc_ready ++ [ESelect]
             ++ write_events (mem sdhc_ready) 3 (write_address 2) 0 (Z.to_nat 1) in
  exists s',
    SD_WriteSectors (card_zero_at 27 1) 3 0 2 1 sdhc_ready = Returned 0 s' /\
    trace s' = h ++ repeat (ETx 0xff) 1 ++ [EDeselect] /\
    sent_data (trace s')
    = sent_data (trace sdhc_ready) ++ load (mem sdhc_ready) 0 (512 * Z.to_nat 1).
Proof.
  apply (X13_write_sends_buffer (card_zero_at 27 1) 3 0 2 1 2 0 sdhc_ready).
  - lia.
  - intros k Hk. destruct k as [|[|k]];
      [vm_compute; discriminate|vm_compute; discriminate|lia].
  - vm_compute. reflexivity.
  - vm_compute. reflexivity.
  - lia.
Defined.

(** A card that answers 0 to everything: the command is accepted at
    once and the card never stops being busy. *)
Lemma X14_write_waits_while_busy_witness :
  let h := trace power_on ++ [ESelect]
             ++ write_events (mem power_on) 1 (write_address 2) 0 (Z.to_nat 1) in
  let o := SD_WriteSectors (card_const 0) 4 0 2 1 power_on in
  ending_of o = Fuel /\
  trace (final o) = h ++ repeat (ETx 0xff) 4 /\
  existsb (fun e => negb (is_traffic e))
          (added (trace power_on ++ [ESelect]) (trace (final o)))
  = false.
Proof.
  apply (X14_write_waits_while_busy (card_const 0) 4 0 2 1 0 power_on).
  - lia.
  - intros k Hk. lia.
  - vm_compute. reflexivity.
  - vm_compute. reflexivity.
Defined.

End SD.
